(** * Audio transcription pipeline: worker and API

    A shallow embedding of [worker/worker.py] ([process_message],
    [generate_personal_diary], [main]) and of the endpoints of [api/app.py]
    ([upload_audio], [check_status], [get_result]).

    The Python code talks to SQS, S3, DynamoDB, Whisper, OpenAI and the local
    file system.  Each of those calls either returns or raises; what it does
    in one run is given by an environment record ([Env]), and the effect of
    a call that returns is written out on an explicit world (the two
    DynamoDB tables, the queue, the temporary files).  Every [try]/[except]
    of the source is kept, so every handler of the source can be reached.
    A run also yields its list of calls, each paired with the world right
    after it, which is what the ordering properties are stated on. *)

From Stdlib Require Import ZArith String Ascii List DecimalString.
From stdpp Require Import base gmap strings list fin_maps.

Open Scope string_scope.
Open Scope list_scope.

#[local] Set Warnings "-register-all".

(** ** Python values and exceptions *)

Module Py.

(** What [json.loads] can return.  A number keeps its literal: the code
    never computes with one.  The literal of an [int] is made of digits and
    a sign; any other ([1.5], [1e3], [NaN], [Infinity]) is a [float]. *)
Inductive json :=
| JNull
| JBool (b : bool)
| JNum (literal : string)
| JStr (s : string)
| JArr (items : list json)
| JObj (members : list (string * json)).

(** The exceptions the worker can meet.  [Error] stands for any other
    subclass of [Exception] (botocore's ClientError, OSError, ...); it
    carries [str(e)]. *)
Inductive exn :=
| JSONDecodeError (msg : string)
| KeyError (key : string)
| TypeError (msg : string)
| Error (msg : string).

Definition str (e : exn) : string :=
  match e with
  | JSONDecodeError msg => msg
  | KeyError key => "'" +:+ key +:+ "'"
  | TypeError msg => msg
  | Error msg => msg
  end.

Definition is_JSONDecodeError (e : exn) : bool :=
  match e with JSONDecodeError _ => true | _ => false end.

Fixpoint is_int_literal (literal : string) : bool :=
  match literal with
  | EmptyString => true
  | String c rest =>
      let n := nat_of_ascii c in
      (Nat.eqb n 45 || ((48 <=? n)%nat && (n <=? 57)%nat)) && is_int_literal rest
  end.

(** [members] are the items of the dict, one for each key. *)
Fixpoint assoc (key : string) (members : list (string * json)) : option json :=
  match members with
  | [] => None
  | (k, v) :: rest => if String.eqb k key then Some v else assoc key rest
  end.

(** [body[key]] for a string key: a dict is searched, anything else raises
    [TypeError]. *)
Definition subscript (body : json) (key : string) : json + exn :=
  match body with
  | JObj members =>
      match assoc key members with
      | Some v => inl v
      | None => inr (KeyError key)
      end
  | JArr _ => inr (TypeError "list indices must be integers or slices, not str")
  | JStr _ => inr (TypeError "string indices must be integers, not 'str'")
  | JNull => inr (TypeError "'NoneType' object is not subscriptable")
  | JBool _ => inr (TypeError "'bool' object is not subscriptable")
  | JNum literal =>
      inr (TypeError (if is_int_literal literal
                      then "'int' object is not subscriptable"
                      else "'float' object is not subscriptable"))
  end.

(** A string holds the UTF-8 encoding of a Python [str].

    The code points [str.strip()] removes, those Python takes for white
    space: the ASCII ones (U+0009 to U+000D, U+001C to U+0020) and
    U+0085, U+00A0, U+1680, U+2000 to U+200A, U+2028, U+2029, U+202F,
    U+205F and U+3000. *)
Definition whitespace : list N :=
  [9; 10; 11; 12; 13; 28; 29; 30; 31; 32; 133; 160; 5760;
   8192; 8193; 8194; 8195; 8196; 8197; 8198; 8199; 8200; 8201; 8202;
   8232; 8233; 8239; 8287; 12288]%N.

Definition byte (n : N) : ascii := ascii_of_N n.

(** The UTF-8 encoding of a code point below U+10000. *)
Definition utf8 (c : N) : string :=
  if (c <? 128)%N then String (byte c) EmptyString
  else if (c <? 2048)%N then
    String (byte (192 + c / 64)) (String (byte (128 + c mod 64)) EmptyString)
  else
    String (byte (224 + c / 4096))
      (String (byte (128 + (c / 64) mod 64))
         (String (byte (128 + c mod 64)) EmptyString)).

Definition reverse_string (s : string) : string :=
  string_of_list_ascii (rev (list_ascii_of_string s)).

(** [s] without its prefix [p], when it starts with [p]. *)
Fixpoint drop_prefix (p s : string) : option string :=
  match p, s with
  | EmptyString, _ => Some s
  | String a p', String b s' => if Ascii.eqb a b then drop_prefix p' s' else None
  | String _ _, EmptyString => None
  end.

Fixpoint drop_one (spaces : list string) (s : string) : option string :=
  match spaces with
  | [] => None
  | p :: rest =>
      match drop_prefix p s with
      | Some s' => Some s'
      | None => drop_one rest s
      end
  end.

(** At most [n] of the given prefixes are taken off the front of [s]. *)
Fixpoint drop_all (spaces : list string) (n : nat) (s : string) : string :=
  match n with
  | O => s
  | S n' =>
      match drop_one spaces s with
      | Some s' => drop_all spaces n' s'
      | None => s
      end
  end.

Definition lstrip (s : string) : string :=
  drop_all (map utf8 whitespace) (String.length s) s.

Definition rstrip (s : string) : string :=
  reverse_string
    (drop_all (map (λ c, reverse_string (utf8 c)) whitespace) (String.length s)
       (reverse_string s)).

(** [str.strip()] *)
Definition strip (s : string) : string := rstrip (lstrip s).

Definition newline : string := String (ascii_of_nat 10) EmptyString.

End Py.

(** ** DynamoDB tables *)

Module Dynamo.

Inductive Attr :=
| AStr (s : string)
| ANum (n : Z).

#[global] Instance Attr_eq_dec : EqDecision Attr.
Proof. solve_decision. Defined.

(** An item is a map from attribute names to values; a table is keyed by
    the string attribute [job_id]. *)
Abbreviation Item := (gmap string Attr).
Abbreviation Table := (gmap string (gmap string Attr)).

(** [UpdateExpression="set a = :x, b = :y"] *)
Definition set_attrs (sets : list (string * Attr)) (item : Item) : Item :=
  foldl (λ acc kv, <[kv.1 := kv.2]> acc) item sets.

(** [update_item] edits the item under [key], or adds a new item holding
    the key when there is none. *)
Definition upsert (key : string) (sets : list (string * Attr)) (t : Table) : Table :=
  <[key := set_attrs sets (default {[ "job_id" := AStr key ]} (t !! key))]> t.

(** The item [put_item] stores for [Item={'job_id': key, ...}]. *)
Definition new_item (key : string) (attrs : list (string * Attr)) : Item :=
  set_attrs attrs {[ "job_id" := AStr key ]}.

(** The value a [set] expression gives to [name], if it sets it. *)
Definition last_set (name : string) (sets : list (string * Attr)) : option Attr :=
  foldl (λ acc kv, if String.eqb kv.1 name then Some kv.2 else acc) None sets.

(** [item.get(name, dflt)] *)
Definition get (item : Item) (name : string) (dflt : Attr) : Attr :=
  default dflt (item !! name).

(** DynamoDB keeps a list of reserved words, and refuses an expression that
    names an attribute by one of them directly rather than through
    [ExpressionAttributeNames].  Of the names in the worker's update
    expressions ([job_status], [transcription], [error]) the list has
    [error]. *)
Definition reserved_word (name : string) : bool := String.eqb name "error".

Definition names_reserved_word (sets : list (string * Attr)) : bool :=
  existsb (λ kv, reserved_word kv.1) sets.

(** The table's key is a string: a key of any other JSON type is refused by
    the service. *)
Definition key_of (v : Py.json) : option string :=
  match v with Py.JStr s => Some s | _ => None end.

End Dynamo.

(** ** The worker: [worker/worker.py] *)

Module Worker.
Import Py Dynamo.

Record Message := { Body : string; ReceiptHandle : string }.

#[global] Instance Message_eq_dec : EqDecision Message.
Proof. solve_decision. Defined.

Record World := {
  transcription_table : Table;
  notes_table : Table;
  queue : list Message;
  files : gset string
}.

Definition with_transcription_table (f : Table → Table) (w : World) : World :=
  {| transcription_table := f (transcription_table w);
     notes_table := notes_table w; queue := queue w; files := files w |}.

Definition with_notes_table (f : Table → Table) (w : World) : World :=
  {| transcription_table := transcription_table w;
     notes_table := f (notes_table w); queue := queue w; files := files w |}.

Definition with_queue (f : list Message → list Message) (w : World) : World :=
  {| transcription_table := transcription_table w;
     notes_table := notes_table w; queue := f (queue w); files := files w |}.

Definition with_files (f : gset string → gset string) (w : World) : World :=
  {| transcription_table := transcription_table w;
     notes_table := notes_table w; queue := queue w; files := f (files w) |}.

(** [delete_message]: the message with this receipt handle leaves the
    queue. *)
Definition remove_receipt (receipt_handle : string) (q : list Message) : list Message :=
  filter (λ m, ReceiptHandle m ≠ receipt_handle) q.

(** *** What the outside world does in one run *)

Inductive outcome (A : Type) :=
| Returns (a : A)
| Raises (msg : string).
Arguments Returns {A} a.
Arguments Raises {A} msg.

(** The six places where [process_message] writes to DynamoDB.  The store
    is not asked about the last: the update of line 146 is refused for its
    expression (see [update_item]). *)
Inductive site :=
| SetDownloading     (* line 73 *)
| SetTranscribing    (* line 89 *)
| SetGeneratingNote  (* line 106 *)
| PutNote            (* line 123 *)
| SetCompleted       (* line 132 *)
| SetError.          (* line 146 *)

Record Env := {
  sqs_receive : outcome (option Message);
  dynamo_write : site → outcome unit;
  tmp_create : outcome string;
  s3_download : outcome unit;
  whisper_transcribe : outcome string;
  openai_chat : string → outcome string;
  os_unlink : outcome unit;
  sqs_delete : outcome unit;
  clock : Z
}.

Definition with_clock (t : Z) (env : Env) : Env :=
  {| sqs_receive := sqs_receive env; dynamo_write := dynamo_write env;
     tmp_create := tmp_create env; s3_download := s3_download env;
     whisper_transcribe := whisper_transcribe env;
     openai_chat := openai_chat env; os_unlink := os_unlink env;
     sqs_delete := sqs_delete env; clock := t |}.

(** *** Calls and runs *)

Inductive Call :=
| ReceiveMessage
| UpdateItem (key : json) (sets : list (string * Attr))
| PutItem (key : json) (item : list (string * Attr))
| CreateTempFile
| DownloadFile (key : json) (dest : string)
| Transcribe (path : string)
| ChatCompletion (prompt : string)
| Unlink (path : string)
| DeleteMessage (receipt_handle : string).

Inductive Level := INFO | WARNING | ERROR.

(** The lines the worker writes to its log. *)
Inductive LogLine :=
| NoMessagesToProcess          (* line 57 *)
| ProcessingJob                (* line 69 *)
| FailedToUpdateDynamoDB       (* lines 79, 95, 115, 138 *)
| DownloadingFileFromS3        (* line 84 *)
| TranscribingFile             (* line 98 *)
| TranscriptionComplete        (* line 102 *)
| GeneratingDiaryNote          (* line 118 *)
| ProcessingComplete           (* line 140 *)
| ErrorProcessingFile          (* line 143 *)
| FailedToUpdateErrorStatus    (* line 155 *)
| FailedToDeleteTemporaryFile  (* line 161 *)
| InvalidJSONInMessageBody     (* line 172 *)
| ErrorReceivingMessage        (* line 178 *)
| ErrorGeneratingDiaryNote.    (* line 209 *)

(** [Called c ok]: the call was made and returned ([ok = true]) or raised.
    [Logged]: a line of the log. *)
Inductive Event :=
| Called (c : Call) (ok : bool)
| Logged (level : Level) (line : LogLine).

(** A run of a piece of code from a world: what it returned or raised, the
    world it left, and what it did, each call with the world right after. *)
Record Run (A : Type) := MkRun {
  result : A + exn;
  world : World;
  events : list (Event * World)
}.
Arguments MkRun {A} result world events.
Arguments result {A} r.
Arguments world {A} r.
Arguments events {A} r.

Definition M (A : Type) : Type := World → Run A.

Definition ret {A} (a : A) : M A := λ w, MkRun (inl a) w [].

Definition raise {A} (e : exn) : M A := λ w, MkRun (inr e) w [].

Definition bind {A B} (m : M A) (k : A → M B) : M B := λ w,
  match m w with
  | MkRun (inl a) w1 evs1 =>
      match k a w1 with
      | MkRun r w2 evs2 => MkRun r w2 (evs1 ++ evs2)
      end
  | MkRun (inr e) w1 evs1 => MkRun (inr e) w1 evs1
  end.

Notation "'let*' x := m 'in' k" := (bind m (λ x, k))
  (at level 10, x name, m at level 100, k at level 200, only parsing).
Notation "m >> k" := (bind m (λ _, k))
  (at level 100, k at level 200, right associativity, only parsing).

(** [try: body  except Exception as e: handler e] *)
Definition try_except {A} (body : M A) (handler : exn → M A) : M A := λ w,
  match body w with
  | MkRun (inl a) w1 evs1 => MkRun (inl a) w1 evs1
  | MkRun (inr e) w1 evs1 =>
      match handler e w1 with
      | MkRun r w2 evs2 => MkRun r w2 (evs1 ++ evs2)
      end
  end.

(** [try: body  except C as e: handler e], for the exceptions of class
    [C] only; the others go on. *)
Definition try_except_only {A} (C : exn → bool) (body : M A) (handler : exn → M A) : M A :=
  try_except body (λ e, if C e then handler e else raise e).

(** [try: body  finally: final] *)
Definition try_finally {A} (body : M A) (final : M unit) : M A := λ w,
  match body w with
  | MkRun r w1 evs1 =>
      match final w1 with
      | MkRun (inl _) w2 evs2 => MkRun r w2 (evs1 ++ evs2)
      | MkRun (inr e) w2 evs2 => MkRun (inr e) w2 (evs1 ++ evs2)
      end
  end.

Definition lift {A} (r : A + exn) : M A := λ w, MkRun r w [].

(** An outside call: on return the world changes by [effect], on a raise it
    is left as it was. *)
Definition call {A} (c : Call) (o : outcome A) (effect : A → World → World) : M A := λ w,
  match o with
  | Returns a => let w' := effect a w in MkRun (inl a) w' [(Called c true, w')]
  | Raises msg => MkRun (inr (Error msg)) w [(Called c false, w)]
  end.

Definition log (level : Level) (line : LogLine) : M unit := λ w,
  MkRun (inl tt) w [(Logged level line, w)].

(** The service's answer to a key that is not a string. *)
Definition ValidationException : string :=
  "An error occurred (ValidationException): The provided key element does not match the schema".

(** Its answer to an update expression that names a reserved word. *)
Definition ReservedKeyword : string :=
  "An error occurred (ValidationException) when calling the UpdateItem operation: Invalid UpdateExpression: Attribute name is a reserved keyword; reserved keyword: error".

(** Lines 187-192. *)
Definition prompt_for (transcription : string) : string :=
  "Convert the following transcription into a structured personal diary journaling note. "
  +:+ "Include clear sections such as Date, Mood, Key Events, and Reflections. "
  +:+ "Ensure the note feels personal and reflective." +:+ newline +:+ newline
  +:+ "Transcription:" +:+ newline +:+ transcription.

(** Line 210. *)
Definition fallback_note (e : exn) : string :=
  "Error generating diary note: " +:+ str e.

Section WithEnv.

Variable json_loads : string → option json.
Variable env : Env.

Definition receive_message : M (option Message) :=
  call ReceiveMessage (sqs_receive env) (λ _ w, w).

Definition loads (s : string) : M json :=
  match json_loads s with
  | Some v => ret v
  | None => raise (JSONDecodeError "Expecting value")
  end.

(** [transcription_table.update_item(Key={'job_id': job_id},
    UpdateExpression="set a = :x, ...", ...)].  The worker passes no
    [ExpressionAttributeNames], so an expression that sets a reserved word
    (the one of line 148, with its [error = :e]) is refused on every
    call. *)
Definition update_item (s : site) (job_id : json) (sets : list (string * Attr)) : M unit :=
  match key_of job_id with
  | Some key =>
      if names_reserved_word sets
      then call (UpdateItem job_id sets) (Raises ReservedKeyword) (λ _ w, w)
      else call (UpdateItem job_id sets) (dynamo_write env s)
                (λ _, with_transcription_table (upsert key sets))
  | None => call (UpdateItem job_id sets) (Raises ValidationException) (λ _ w, w)
  end.

(** [notes_table.put_item(Item={'job_id': job_id, ...})]: the whole item is
    replaced. *)
Definition put_item (s : site) (job_id : json) (attrs : list (string * Attr)) : M unit :=
  match key_of job_id with
  | Some key =>
      call (PutItem job_id attrs) (dynamo_write env s)
           (λ _, with_notes_table (insert key (new_item key attrs)))
  | None => call (PutItem job_id attrs) (Raises ValidationException) (λ _ w, w)
  end.

(** [tempfile.NamedTemporaryFile(delete=False, suffix='.mp3')] *)
Definition NamedTemporaryFile : M string :=
  call CreateTempFile (tmp_create env) (λ name, with_files (union {[ name ]})).

Definition download_file (file_path : json) (dest : string) : M unit :=
  call (DownloadFile file_path dest) (s3_download env) (λ _ w, w).

(** [model.transcribe(path, ...)["text"]] *)
Definition transcribe (path : string) : M string :=
  call (Transcribe path) (whisper_transcribe env) (λ _ w, w).

Definition chat_completions_create (prompt : string) : M string :=
  call (ChatCompletion prompt) (openai_chat env prompt) (λ _ w, w).

Definition unlink (path : string) : M unit :=
  call (Unlink path) (os_unlink env) (λ _, with_files (λ fs, fs ∖ {[ path ]})).

Definition delete_message (receipt_handle : string) : M unit :=
  call (DeleteMessage receipt_handle) (sqs_delete env)
       (λ _, with_queue (remove_receipt receipt_handle)).

(** Lines 79, 95, 115 and 138. *)
Definition warn_dynamo (e : exn) : M unit :=
  log WARNING FailedToUpdateDynamoDB.

(** Lines 181-210. *)
Definition generate_personal_diary (transcription : string) : M string :=
  try_except
    (let prompt := prompt_for transcription in
     let* content := chat_completions_create prompt in
     ret (strip content))
    (λ e,
       log ERROR ErrorGeneratingDiaryNote >>
       ret (fallback_note e)).

(** Lines 82-161: the body of the [with] block. *)
Definition process_file (job_id file_path : json) (temp_file : string) : M unit :=
  try_finally
    (try_except
       (log INFO DownloadingFileFromS3 >>
        download_file file_path temp_file >>
        try_except
          (update_item SetTranscribing job_id [("job_status", AStr "transcribing")])
          warn_dynamo >>
        log INFO TranscribingFile >>
        let* transcription := transcribe temp_file in
        log INFO TranscriptionComplete >>
        try_except
          (update_item SetGeneratingNote job_id
             [("transcription", AStr transcription);
              ("job_status", AStr "generating_note")])
          warn_dynamo >>
        log INFO GeneratingDiaryNote >>
        let* diary_note := generate_personal_diary transcription in
        try_except
          (put_item PutNote job_id
             [("diary_note", AStr diary_note); ("created_at", ANum (clock env))] >>
           update_item SetCompleted job_id [("job_status", AStr "completed")])
          warn_dynamo >>
        log INFO ProcessingComplete)
       (λ e,
          log ERROR ErrorProcessingFile >>
          try_except
            (update_item SetError job_id
               [("job_status", AStr "error"); ("error", AStr (str e))])
            (λ db_err, log WARNING FailedToUpdateErrorStatus)))
    (try_except
       (unlink temp_file)
       (λ e, log WARNING FailedToDeleteTemporaryFile)).

(** Lines 42-179. *)
Definition process_message : M bool :=
  try_except
    (let* response := receive_message in
     match response with
     | None => log INFO NoMessagesToProcess >> ret false
     | Some message =>
         let receipt_handle := ReceiptHandle message in
         try_except_only is_JSONDecodeError
           (let* body := loads (Body message) in
            let* job_id := lift (subscript body "job_id") in
            let* file_path := lift (subscript body "file_path") in
            log INFO ProcessingJob >>
            try_except
              (update_item SetDownloading job_id [("job_status", AStr "downloading")])
              warn_dynamo >>
            let* temp_file := NamedTemporaryFile in
            process_file job_id file_path temp_file >>
            delete_message receipt_handle >>
            ret true)
           (λ e, log ERROR InvalidJSONInMessageBody >> ret false)
     end)
    (λ e, log ERROR ErrorReceivingMessage >> ret false).

End WithEnv.

End Worker.

(** ** The read endpoints: [api/app.py] *)

Module App.
Import Dynamo.

(** The exceptions of the two handlers: the [HTTPException] they raise
    themselves and botocore's [ClientError], which carries its message. *)
Inductive exn :=
| HTTPException (status_code : Z) (detail : string)
| ClientError (msg : string).

(** [str(e)].  Starlette prints an [HTTPException] as
    [f"{status_code}: {detail}"]. *)
Definition str (e : exn) : string :=
  match e with
  | HTTPException status_code detail =>
      NilZero.string_of_int (Z.to_int status_code) +:+ ": " +:+ detail
  | ClientError msg => msg
  end.

(** What the client gets: the returned dict with status 200, or the status
    and detail of the [HTTPException] that leaves the handler. *)
Inductive response :=
| OK (body : list (string * Attr))
| Failed (status_code : Z) (detail : string).

Inductive table_name := AudioTranscriptions | DiaryNotes.

(** The tables the API reads, and for each the message of the
    [ClientError] its [get_item] raises, if it raises. *)
Record DB := {
  transcription_table : Table;
  notes_table : Table;
  get_raises : table_name → option string
}.

(** [table.get_item(Key={'job_id': job_id})]: [Some item] when the response
    has an ['Item']. *)
Definition get_item (db : DB) (name : table_name) (job_id : string) : option Item + exn :=
  match get_raises db name with
  | Some msg => inr (ClientError msg)
  | None =>
      inl (match name with
           | AudioTranscriptions => transcription_table db !! job_id
           | DiaryNotes => notes_table db !! job_id
           end)
  end.

(** The [except Exception as e:] clause that closes both handlers
    (lines 111-114 and 157-160). *)
Definition except_clause (r : list (string * Attr) + exn) : response :=
  match r with
  | inl body => OK body
  | inr e =>
      if String.prefix "An error occurred (ResourceNotFoundException)" (str e)
      then Failed 404 "Job not found"
      else Failed 500 (str e)
  end.

(** Lines 92-114. *)
Definition check_status (db : DB) (job_id : string) : response :=
  except_clause
    match get_item db AudioTranscriptions job_id with
    | inr e => inr e
    | inl None => inr (HTTPException 404 "Job not found")
    | inl (Some item) =>
        inl [("job_id", AStr job_id);
             ("status", get item "job_status" (AStr "unknown"));
             ("file_name", get item "file_name" (AStr ""))]
    end.

(** Lines 116-160. *)
Definition get_result (db : DB) (job_id : string) : response :=
  except_clause
    match get_item db AudioTranscriptions job_id with
    | inr e => inr e
    | inl None => inr (HTTPException 404 "Job not found")
    | inl (Some item) =>
        if bool_decide (item !! "job_status" ≠ Some (AStr "completed")) then
          inl [("job_id", AStr job_id);
               ("status", get item "job_status" (AStr "unknown"));
               ("message", AStr "Processing not yet complete")]
        else
          match get_item db DiaryNotes job_id with
          | inr e => inr e
          | inl None =>
              inl [("job_id", AStr job_id);
                   ("status", AStr "completed");
                   ("transcription", get item "transcription" (AStr ""));
                   ("message", AStr "Note generation pending")]
          | inl (Some note) =>
              inl [("job_id", AStr job_id);
                   ("status", AStr "completed");
                   ("transcription", get item "transcription" (AStr ""));
                   ("diary_note", get note "diary_note" (AStr ""))]
          end
    end.

End App.

(** ** What is observed of a run *)

Module Observe.
Import Py Dynamo Worker.

(** Lines 65-67: the job identifier and the blob location the worker reads
    from a message, when all three lines go through. *)
Definition decode (json_loads : string → option json) (m : Message) : option (json * json) :=
  match json_loads (Body m) with
  | Some body =>
      match subscript body "job_id", subscript body "file_path" with
      | inl job_id, inl file_path => Some (job_id, file_path)
      | _, _ => None
      end
  | None => None
  end.

Definition attr_of (t : Table) (job_id name : string) : option Attr :=
  item ← t !! job_id; item !! name.

(** The [job_status] of the Job record, if there is a record with one. *)
Definition job_status (w : World) (job_id : string) : option Attr :=
  attr_of (transcription_table w) job_id "job_status".

Definition job_error (w : World) (job_id : string) : option Attr :=
  attr_of (transcription_table w) job_id "error".

Definition diary_note (w : World) (job_id : string) : option Attr :=
  attr_of (notes_table w) job_id "diary_note".

Definition is_status (name : string) (status : option Attr) : bool :=
  match status with
  | Some (AStr s) => String.eqb s name
  | _ => false
  end.

Definition terminal (status : option Attr) : bool :=
  is_status "completed" status || is_status "error" status.

Definition is_delete (ev : Event) : bool :=
  match ev with Called (DeleteMessage _) _ => true | _ => false end.

Definition is_put_item (ev : Event) : bool :=
  match ev with Called (PutItem _ _) _ => true | _ => false end.

Definition is_update_item (ev : Event) : bool :=
  match ev with Called (UpdateItem _ _) _ => true | _ => false end.

Definition is_store_write (ev : Event) : bool :=
  is_update_item ev || is_put_item ev.

Definition is_unlink (path : string) (ev : Event) : bool :=
  match ev with Called (Unlink p) _ => String.eqb p path | _ => false end.

(** Every [delete_message] of the run is made in a world where the Job
    record of [job_id] has a terminal status. *)
Definition deleted_only_when_terminal (job_id : string) (evs : list (Event * World)) : bool :=
  forallb (λ e, implb (is_delete e.1) (terminal (job_status e.2 job_id))) evs.

(** The order of the states; [error] is outside of it. *)
Definition rank (status : option Attr) : option nat :=
  match status with
  | None => Some 0%nat
  | Some (AStr s) =>
      if String.eqb s "queued" then Some 0%nat
      else if String.eqb s "downloading" then Some 1%nat
      else if String.eqb s "transcribing" then Some 2%nat
      else if String.eqb s "generating_note" then Some 3%nat
      else if String.eqb s "completed" then Some 4%nat
      else None
  | Some (ANum _) => None
  end.

(** One step of the state machine: forward in the order from a state that
    is not terminal, or from such a state to [error]. *)
Definition advances (s s' : option Attr) : bool :=
  negb (terminal s) &&
  match rank s, rank s' with
  | Some n, Some n' => (n <? n')%nat
  | Some _, None => is_status "error" s'
  | None, _ => false
  end.

(** Not yet past [downloading]. *)
Definition early (s : option Attr) : bool :=
  match s with
  | None => true
  | Some (AStr x) => String.eqb x "queued" || String.eqb x "downloading"
  | Some (ANum _) => false
  end.

Definition same_status (s s' : option Attr) : bool :=
  bool_decide (s = s').

(** From status [s] on, the status seen after each event is the one before
    it or a step forward. *)
Fixpoint advances_along (job_id : string) (s : option Attr) (evs : list (Event * World)) : bool :=
  match evs with
  | [] => true
  | (_, w) :: rest =>
      let s' := job_status w job_id in
      (same_status s s' || advances s s') && advances_along job_id s' rest
  end.

(** The status seen after the last event, [s] when there is none. *)
Fixpoint final_status (job_id : string) (s : option Attr) (evs : list (Event * World)) : option Attr :=
  match evs with
  | [] => s
  | (_, w) :: rest => final_status job_id (job_status w job_id) rest
  end.

(** The events before the first one that satisfies [p]. *)
Fixpoint until_first (p : Event → bool) (evs : list (Event * World)) : list (Event * World) :=
  match evs with
  | [] => []
  | e :: rest => if p e.1 then [] else e :: until_first p rest
  end.

(** [delete_message] was called with this receipt handle. *)
Definition deletes (receipt_handle : string) (ev : Event) : bool :=
  match ev with
  | Called (DeleteMessage h) _ => String.eqb h receipt_handle
  | _ => false
  end.

(** An [update_item] that went through and set a terminal status. *)
Definition terminal_write (ev : Event) : bool :=
  match ev with
  | Called (UpdateItem _ sets) true => terminal (last_set "job_status" sets)
  | _ => false
  end.

(** An [update_item] that set out to record the status [error] and
    raised. *)
Definition error_write_refused (ev : Event) : bool :=
  match ev with
  | Called (UpdateItem _ sets) false => is_status "error" (last_set "job_status" sets)
  | _ => false
  end.

Definition count_terminal_writes (evs : list (Event * World)) : nat :=
  length (List.filter (λ e, terminal_write e.1) evs).

End Observe.

(** ** The effect of a run on the two tables

    The control flow of the worker never reads a table, so what a piece of
    its code does to the tables is the same from every world: at most one
    combined [set] on the Job record and at most one [put] of the Note
    record, both under the same key.  The clock only enters the item that
    is put. *)

Module Effect.
Import Py Dynamo Worker.

Definition apply_sets (job_id : string) (sets : option (list (string * Attr))) (t : Table) : Table :=
  match sets with
  | Some l => upsert job_id l t
  | None => t
  end.

Definition apply_put (job_id : string) (attrs : option (list (string * Attr))) (t : Table) : Table :=
  match attrs with
  | Some l => <[job_id := new_item job_id l]> t
  | None => t
  end.

Definition then_sets (a b : option (list (string * Attr))) : option (list (string * Attr)) :=
  match a, b with
  | Some l, Some l' => Some (l ++ l')
  | Some l, None => Some l
  | None, _ => b
  end.

Definition then_put {X} (a b : option X) : option X :=
  match b with
  | Some _ => b
  | None => a
  end.

(** [m c] is the code run with clock reading [c]. *)
Definition steady {A} (job_id : string) (m : Z → M A) : Prop :=
  ∃ (res : A + exn) (sets : option (list (string * Attr)))
    (attrs : option (Z → list (string * Attr))),
    ∀ c w,
      result (m c w) = res ∧
      transcription_table (world (m c w)) =
        apply_sets job_id sets (transcription_table w) ∧
      notes_table (world (m c w)) =
        apply_put job_id ((λ f, f c) <$> attrs) (notes_table w).

Definition yields {A} (m : Z → M A) (res : A + exn) : Prop :=
  ∀ c w, result (m c w) = res.

End Effect.

(** ** Concrete runs *)

Module Scenario.
Import Py Dynamo Worker.

Definition quoted (s : string) : string :=
  String (ascii_of_nat 34) s +:+ String (ascii_of_nat 34) EmptyString.

(** The body of the dispatch message of job J1, as [upload_audio] sends it. *)
Definition body_J1 : string :=
  "{" +:+ quoted "job_id" +:+ ": " +:+ quoted "J1" +:+ ", "
  +:+ quoted "file_path" +:+ ": " +:+ quoted "uploads/J1/a.mp3" +:+ ", "
  +:+ quoted "file_name" +:+ ": " +:+ quoted "a.mp3" +:+ "}".

(** [json.loads] on the texts used here. *)
Definition json_loads (s : string) : option json :=
  if String.eqb s body_J1 then
    Some (JObj [("job_id", JStr "J1");
                ("file_path", JStr "uploads/J1/a.mp3");
                ("file_name", JStr "a.mp3")])
  else if String.eqb s "{}" then Some (JObj [])
  else None.

Definition dispatch_J1 : Message :=
  {| Body := body_J1; ReceiptHandle := "AQEB-1" |}.

Definition poison : Message :=
  {| Body := "{}"; ReceiptHandle := "AQEB-2" |}.

Definition temp_name : string := "/tmp/tmpk3v9.mp3".

(** The job as [upload_audio] leaves it, its message in the queue. *)
Definition queued : World :=
  {| transcription_table :=
       {[ "J1" := {[ "job_id" := AStr "J1"; "file_name" := AStr "a.mp3";
                     "file_path" := AStr "uploads/J1/a.mp3";
                     "job_status" := AStr "queued" ]} ]};
     notes_table := ∅;
     queue := [dispatch_J1];
     files := ∅ |}.

Definition all_writes (o : outcome unit) : site → outcome unit := λ _, o.

Definition fails_at (s : site) : site → outcome unit := λ s',
  match s, s' with
  | SetDownloading, SetDownloading | SetTranscribing, SetTranscribing
  | SetGeneratingNote, SetGeneratingNote | PutNote, PutNote
  | SetCompleted, SetCompleted | SetError, SetError =>
      Raises "An error occurred (ProvisionedThroughputExceededException)"
  | _, _ => Returns tt
  end.

(** Every call returns. *)
Definition all_well : Env :=
  {| sqs_receive := Returns (Some dispatch_J1);
     dynamo_write := all_writes (Returns tt);
     tmp_create := Returns temp_name;
     s3_download := Returns tt;
     whisper_transcribe := Returns " Went for a walk.";
     openai_chat := λ _, Returns "Date: today. Mood: calm.";
     os_unlink := Returns tt;
     sqs_delete := Returns tt;
     clock := 1700000000 |}.

Definition with_dynamo_write (f : site → outcome unit) (env : Env) : Env :=
  {| sqs_receive := sqs_receive env; dynamo_write := f;
     tmp_create := tmp_create env; s3_download := s3_download env;
     whisper_transcribe := whisper_transcribe env;
     openai_chat := openai_chat env; os_unlink := os_unlink env;
     sqs_delete := sqs_delete env; clock := clock env |}.

(** The blob is not there. *)
Definition no_blob : Env :=
  {| sqs_receive := Returns (Some dispatch_J1);
     dynamo_write := all_writes (Returns tt);
     tmp_create := Returns temp_name;
     s3_download := Raises "An error occurred (404) when calling the HeadObject operation: Not Found";
     whisper_transcribe := Returns "";
     openai_chat := λ _, Returns "";
     os_unlink := Returns tt;
     sqs_delete := Returns tt;
     clock := 1700000000 |}.

(** The note generator is down. *)
Definition no_note : Env :=
  {| sqs_receive := Returns (Some dispatch_J1);
     dynamo_write := all_writes (Returns tt);
     tmp_create := Returns temp_name;
     s3_download := Returns tt;
     whisper_transcribe := Returns " Went for a walk.";
     openai_chat := λ _, Raises "Connection error.";
     os_unlink := Returns tt;
     sqs_delete := Returns tt;
     clock := 1700000000 |}.

(** The temporary file cannot be removed (so it is for a file that is still
    open, as this one is inside its [with] block, where the system refuses
    to unlink open files). *)
Definition stuck_file : Env :=
  {| sqs_receive := Returns (Some dispatch_J1);
     dynamo_write := all_writes (Returns tt);
     tmp_create := Returns temp_name;
     s3_download := Returns tt;
     whisper_transcribe := Returns " Went for a walk.";
     openai_chat := λ _, Returns "Date: today. Mood: calm.";
     os_unlink := Raises "[WinError 32] The process cannot access the file because it is being used by another process";
     sqs_delete := Returns tt;
     clock := 1700000000 |}.

(** A message that is not a dispatch. *)
Definition poisoned : Env :=
  {| sqs_receive := Returns (Some poison);
     dynamo_write := all_writes (Returns tt);
     tmp_create := Returns temp_name;
     s3_download := Returns tt;
     whisper_transcribe := Returns "";
     openai_chat := λ _, Returns "";
     os_unlink := Returns tt;
     sqs_delete := Returns tt;
     clock := 1700000000 |}.

Definition run (env : Env) (w : World) : Run bool :=
  process_message json_loads env w.

(** A completed job, and the tables the API reads when its note is not
    there. *)
Definition completed_J1 : Item :=
  {[ "job_id" := AStr "J1"; "file_name" := AStr "a.mp3";
     "job_status" := AStr "completed";
     "transcription" := AStr " Went for a walk." ]}.

Definition note_missing : App.DB :=
  {| App.transcription_table := {[ "J1" := completed_J1 ]};
     App.notes_table := ∅;
     App.get_raises := λ _, None |}.

End Scenario.

(** ** The consumer loop: [main] of [worker/worker.py] *)

Module Loop.
Import Py Dynamo Worker.

(** One turn of the [while True] (lines 219-225): the poll, and the
    seconds slept after it, if any. *)
Definition turn (json_loads : string → option json) (env : Env) (w : World) : option nat * World :=
  let r := process_message json_loads env w in
  match result r with
  | inl true => (None, world r)
  | inl false => (Some 1%nat, world r)
  | inr _ => (Some 5%nat, world r)
  end.

(** The first turns of [main], with the outcomes of the calls of each. *)
Fixpoint main (json_loads : string → option json) (envs : list Env) (w : World) : list (option nat) * World :=
  match envs with
  | [] => ([], w)
  | env :: rest =>
      let (pause, w1) := turn json_loads env w in
      let (pauses, w2) := main json_loads rest w1 in
      (pause :: pauses, w2)
  end.

End Loop.

(** ** The upload endpoint: [upload_audio] of [api/app.py] *)

Module Intake.
Import Py Dynamo Worker.

(** The bucket of uploaded blobs beside the tables and the queue. *)
Record Site := {
  bucket : gmap string string;
  backend : World
}.

(** What the outside world does in one upload; [receipt] is the handle
    under which the queue will later hand the message out. *)
Record Calls := {
  uuid4 : string;
  s3_upload : outcome unit;
  dynamo_put : outcome unit;
  sqs_send : outcome unit;
  receipt : string
}.

(** Line 54. *)
Definition path_of (job_id filename : string) : string :=
  "uploads/" +:+ job_id +:+ "/" +:+ filename.

(** Lines 79-83: the dict that is sent. *)
Definition dispatch (job_id file_path file_name : string) : json :=
  JObj [("job_id", JStr job_id);
        ("file_path", JStr file_path);
        ("file_name", JStr file_name)].

(** Lines 66-71: the item that is put. *)
Definition queued_item (job_id file_name file_path : string) : Item :=
  new_item job_id [("file_name", AStr file_name);
                   ("file_path", AStr file_path);
                   ("job_status", AStr "queued")].

Definition store_blob (key content : string) (s : Site) : Site :=
  {| bucket := <[key := content]> (bucket s); backend := backend s |}.

Definition on_backend (f : World → World) (s : Site) : Site :=
  {| bucket := bucket s; backend := f (backend s) |}.

(** Lines 44-90.  The result of the [try] block is the returned dict or
    the exception that leaves it; the [except] clause turns every
    exception into a 500 with its text. *)
Definition upload_audio (json_dumps : json → string) (env : Calls)
    (filename content : string) (s : Site) : App.response * Site :=
  let job_id := uuid4 env in
  let file_path := path_of job_id filename in
  let '(r, s') :=
    match s3_upload env with
    | Raises msg => (inr (App.ClientError msg), s)
    | Returns _ =>
        let s1 := store_blob file_path content s in
        let s2 :=
          match dynamo_put env with
          | Returns _ =>
              on_backend
                (with_transcription_table
                   (insert job_id (queued_item job_id filename file_path))) s1
          | Raises _ => s1
          end in
        match sqs_send env with
        | Raises msg => (inr (App.ClientError msg), s2)
        | Returns _ =>
            let m := {| Body := json_dumps (dispatch job_id file_path filename);
                        ReceiptHandle := receipt env |} in
            (inl [("job_id", AStr job_id); ("status", AStr "queued")],
             on_backend (with_queue (λ q, q ++ [m])) s2)
        end
    end in
  (match r with
   | inl body => App.OK body
   | inr e => App.Failed 500 (App.str e)
   end, s').

(** The tables of a world as the API reads them, every lookup answering. *)
Definition db_of (w : World) : App.DB :=
  {| App.transcription_table := transcription_table w;
     App.notes_table := notes_table w;
     App.get_raises := λ _, None |}.

End Intake.

(** ** The shape of a run *)

Module Shape.
Import Py Dynamo Worker.

(** The world after lines 72-79: the write of [downloading], when it goes
    through. *)
Definition after_downloading (env : Env) (job : json) (w : World) : World :=
  match key_of job, dynamo_write env SetDownloading with
  | Some key, Returns _ =>
      with_transcription_table (upsert key [("job_status", AStr "downloading")]) w
  | _, _ => w
  end.

(** The attributes of a Job record the worker writes: the key, and the
    names in the [set] expressions of lines 73-77, 89-93, 106-113, 132-136
    and 146-153. *)
Definition written_attrs : list string :=
  ["job_id"; "job_status"; "transcription"; "error"].

(** What [generate_personal_diary] hands back (lines 194-210): the stripped
    answer of the note generator, or the text of its failure. *)
Definition diary_of (env : Env) (transcription : string) : string :=
  match openai_chat env (prompt_for transcription) with
  | Returns content => strip content
  | Raises msg => fallback_note (Error msg)
  end.

(** The item of lines 123-129. *)
Definition note_item (env : Env) (job_id note : string) : Item :=
  new_item job_id [("diary_note", AStr note); ("created_at", ANum (clock env))].

(** The message of lines 77-84 as the queue hands it out. *)
Definition sent (json_dumps : json → string) (calls : Intake.Calls) (filename : string) : Message :=
  let job_id := Intake.uuid4 calls in
  {| Body := json_dumps (Intake.dispatch job_id (Intake.path_of job_id filename) filename);
     ReceiptHandle := Intake.receipt calls |}.

(** The names of the entries of a returned dict. *)
Definition keys (body : list (string * Attr)) : list string := body.*1.

Definition body_of (r : App.response) : list (string * Attr) :=
  match r with
  | App.OK body => body
  | App.Failed _ _ => []
  end.

End Shape.

(** ** More concrete runs *)

Module Cases.
Import Py Dynamo Worker.

(** [json.dumps] on the dicts [upload_audio] sends. *)
Definition json_dumps (d : json) : string :=
  match d with
  | JObj [("job_id", JStr j); ("file_path", JStr p); ("file_name", JStr n)] =>
      "{" +:+ Scenario.quoted "job_id" +:+ ": " +:+ Scenario.quoted j +:+ ", "
      +:+ Scenario.quoted "file_path" +:+ ": " +:+ Scenario.quoted p +:+ ", "
      +:+ Scenario.quoted "file_name" +:+ ": " +:+ Scenario.quoted n +:+ "}"
  | _ => "null"
  end.

Definition empty_site : Intake.Site :=
  {| Intake.bucket := ∅;
     Intake.backend := {| transcription_table := ∅; notes_table := ∅;
                          queue := []; files := ∅ |} |}.

Definition upload_well : Intake.Calls :=
  {| Intake.uuid4 := "J1";
     Intake.s3_upload := Returns tt;
     Intake.dynamo_put := Returns tt;
     Intake.sqs_send := Returns tt;
     Intake.receipt := "AQEB-1" |}.

Definition upload_no_table : Intake.Calls :=
  {| Intake.uuid4 := "J1";
     Intake.s3_upload := Returns tt;
     Intake.dynamo_put := Raises "Could not connect to the endpoint URL";
     Intake.sqs_send := Returns tt;
     Intake.receipt := "AQEB-1" |}.

Definition upload_no_queue : Intake.Calls :=
  {| Intake.uuid4 := "J1";
     Intake.s3_upload := Returns tt;
     Intake.dynamo_put := Returns tt;
     Intake.sqs_send := Raises "An error occurred (AWS.SimpleQueueService.NonExistentQueue)";
     Intake.receipt := "AQEB-1" |}.

Definition upload_no_bucket : Intake.Calls :=
  {| Intake.uuid4 := "J1";
     Intake.s3_upload := Raises "An error occurred (NoSuchBucket) when calling the PutObject operation";
     Intake.dynamo_put := Returns tt;
     Intake.sqs_send := Returns tt;
     Intake.receipt := "AQEB-1" |}.

(** The transcription engine fails. *)
Definition no_speech : Env :=
  {| sqs_receive := Returns (Some Scenario.dispatch_J1);
     dynamo_write := Scenario.all_writes (Returns tt);
     tmp_create := Returns Scenario.temp_name;
     s3_download := Returns tt;
     whisper_transcribe := Raises "Failed to load audio";
     openai_chat := λ _, Returns "";
     os_unlink := Returns tt;
     sqs_delete := Returns tt;
     clock := 1700000000 |}.

(** No temporary file can be made. *)
Definition no_space : Env :=
  {| sqs_receive := Returns (Some Scenario.dispatch_J1);
     dynamo_write := Scenario.all_writes (Returns tt);
     tmp_create := Raises "[Errno 28] No space left on device";
     s3_download := Returns tt;
     whisper_transcribe := Returns "";
     openai_chat := λ _, Returns "";
     os_unlink := Returns tt;
     sqs_delete := Returns tt;
     clock := 1700000000 |}.

(** The write of the transcription is refused. *)
Definition lost_write : Env :=
  Scenario.with_dynamo_write (Scenario.fails_at SetGeneratingNote) Scenario.all_well.

(** Another job beside J1. *)
Definition two_jobs : World :=
  {| transcription_table :=
       <["J0" := {[ "job_id" := AStr "J0"; "job_status" := AStr "completed" ]}]>
         (transcription_table Scenario.queued);
     notes_table := {[ "J0" := {[ "job_id" := AStr "J0"; "diary_note" := AStr "Yesterday." ]} ]};
     queue := [Scenario.dispatch_J1];
     files := ∅ |}.

(** The tables the API reads when the table of jobs is missing. *)
Definition no_tables : App.DB :=
  {| App.transcription_table := ∅;
     App.notes_table := ∅;
     App.get_raises := λ _,
       Some "An error occurred (ResourceNotFoundException) when calling the GetItem operation" |}.

(** A completed job with its note, and the same with the table of notes
    missing. *)
Definition served : App.DB :=
  {| App.transcription_table := {[ "J1" := Scenario.completed_J1 ]};
     App.notes_table :=
       {[ "J1" := {[ "job_id" := AStr "J1"; "diary_note" := AStr "Date: today. Mood: calm.";
                     "created_at" := ANum 1700000000 ]} ]};
     App.get_raises := λ _, None |}.

Definition notes_gone : App.DB :=
  {| App.transcription_table := {[ "J1" := Scenario.completed_J1 ]};
     App.notes_table := ∅;
     App.get_raises := λ name,
       match name with
       | App.AudioTranscriptions => None
       | App.DiaryNotes =>
           Some "An error occurred (ResourceNotFoundException) when calling the GetItem operation"
       end |}.

End Cases.

(** ** Proofs *)

Import Py Dynamo Worker Observe Effect.

#[local] Arguments upsert : simpl never.
#[local] Arguments new_item : simpl never.
#[local] Arguments remove_receipt : simpl never.
#[local] Arguments prompt_for : simpl never.
#[local] Arguments fallback_note : simpl never.
#[local] Arguments strip : simpl never.
#[local] Arguments ValidationException : simpl never.
#[local] Arguments subscript : simpl never.
#[local] Arguments attr_of : simpl never.
#[local] Arguments terminal : simpl never.
#[local] Arguments is_status : simpl never.
#[local] Arguments same_status : simpl never.
#[local] Arguments advances : simpl never.
#[local] Arguments process_file : simpl never.

(** *** Tactics: running the code on the outcomes of its calls *)

Ltac unfold_file :=
  unfold process_file, generate_personal_diary, update_item, put_item,
    download_file, transcribe, chat_completions_create, unlink, warn_dynamo,
    bind, try_except, try_finally, call, log, ret, raise, lift.

Ltac unfold_message :=
  unfold process_message, receive_message, Worker.loads, update_item,
    NamedTemporaryFile, delete_message, warn_dynamo, try_except_only,
    bind, try_except, try_finally, call, log, ret, raise, lift.

(** The goal becomes [Q run]: the cases of the run are then split without
    the property in the way. *)
Ltac hide_goal t :=
  pattern t;
  match goal with |- ?P _ => let Q := fresh "Q" in set (Q := P) end.

Ltac show_goal :=
  match goal with Q := _ |- _ => subst Q; cbv beta end.

Ltac use_outcome :=
  match goal with
  | H : ?x = _ |- context [match ?x with _ => _ end] => rewrite H
  end.

Ltac split_outcome :=
  match goal with
  | |- context [match ?o with Returns _ => _ | Raises _ => _ end] =>
      destruct o eqn:?
  end.

Ltac no_units := repeat match goal with a : unit |- _ => destruct a end.

Ltac crunch :=
  repeat (simpl; first [use_outcome | split_outcome]); no_units; simpl.

(** The same with the run of [process_file] replaced by what [lemma] says
    of it. *)
Ltac open_file lemma :=
  match goal with
  | |- context [process_file ?e ?j ?f ?p ?w] =>
      let H := fresh "Hfile" in
      pose proof (lemma f p w) as H;
      destruct (process_file e j f p w) as [rf wf evsf]
  end.

Ltac crunch_with lemma :=
  repeat (simpl; first [use_outcome | open_file lemma | split_outcome]);
  no_units; simpl.

(** *** [set] expressions and tables *)

Lemma set_attrs_app l l' (item : Item) :
  set_attrs (l ++ l') item = set_attrs l' (set_attrs l item).
Proof. apply foldl_app. Qed.

Lemma set_attrs_union l (item : Item) :
  set_attrs l item = list_to_map (rev l) ∪ item.
Proof.
  revert item. induction l as [|[k v] l IH]; intros item.
  - simpl. by rewrite (left_id ∅ (∪)).
  - unfold set_attrs in *. simpl. rewrite IH, list_to_map_app. simpl.
    rewrite insert_empty, <-(assoc_L (∪)). by rewrite <-insert_union_singleton_l.
Qed.

(** Setting the same attributes twice is setting them once. *)
Lemma set_attrs_twice l (item : Item) :
  set_attrs (l ++ l) item = set_attrs l item.
Proof.
  rewrite !set_attrs_union, rev_app_distr, list_to_map_app.
  by rewrite (idemp_L (∪)).
Qed.

Lemma lookup_set_attrs sets (item : Item) name :
  set_attrs sets item !! name =
  match last_set name sets with Some v => Some v | None => item !! name end.
Proof.
  unfold set_attrs, last_set.
  induction sets as [|[k v] sets IH] using rev_ind; [done|].
  rewrite !foldl_app. simpl. destruct (String.eqb_spec k name) as [->|Hne].
  - by rewrite lookup_insert_eq.
  - by rewrite lookup_insert_ne.
Qed.

Lemma upsert_upsert job_id l l' (t : Table) :
  upsert job_id l' (upsert job_id l t) = upsert job_id (l ++ l') t.
Proof.
  unfold upsert. rewrite lookup_insert_eq, insert_insert_eq. simpl.
  by rewrite set_attrs_app.
Qed.

Lemma attr_of_upsert_eq t job_id sets name :
  attr_of (upsert job_id sets t) job_id name =
  set_attrs sets (default {[ "job_id" := AStr job_id ]} (t !! job_id)) !! name.
Proof. unfold attr_of, upsert. by rewrite lookup_insert_eq. Qed.

Lemma attr_of_upsert_set t job_id sets name v :
  last_set name sets = Some v →
  attr_of (upsert job_id sets t) job_id name = Some v.
Proof.
  intros H. rewrite attr_of_upsert_eq, lookup_set_attrs. by rewrite H.
Qed.

Lemma attr_of_put t job_id attrs name v :
  last_set name attrs = Some v →
  attr_of (<[job_id := new_item job_id attrs]> t) job_id name = Some v.
Proof.
  intros H. unfold attr_of, new_item.
  rewrite lookup_insert_eq. simpl. rewrite lookup_set_attrs. by rewrite H.
Qed.

Lemma set_attrs_other sets (item : Item) name :
  name ∉ sets.*1 → set_attrs sets item !! name = item !! name.
Proof.
  unfold set_attrs. revert item.
  induction sets as [|[k v] sets IH]; intros item; [done|].
  simpl. intros [Hk Hsets]%not_elem_of_cons.
  rewrite IH by done. by rewrite lookup_insert_ne.
Qed.

Lemma attr_of_upsert_other (t : Table) job_id sets name :
  name ∉ "job_id" :: sets.*1 →
  attr_of (upsert job_id sets t) job_id name = attr_of t job_id name.
Proof.
  intros [Hid Hsets]%not_elem_of_cons.
  rewrite attr_of_upsert_eq, set_attrs_other by done.
  unfold attr_of. destruct (t !! job_id) as [item|]; simpl; [done|].
  by rewrite lookup_singleton_ne.
Qed.

Ltac other_attr :=
  apply attr_of_upsert_other; simpl;
  repeat (apply not_elem_of_cons; split; [done|]); apply not_elem_of_nil.

(** The attributes of the job under [job_id] after the run, computed from
    the [set] expressions on the way; [H] is what is known of the job
    before. *)
Ltac statuses H :=
  unfold job_status, job_error, diary_note in *; simpl;
  repeat first
    [ erewrite attr_of_upsert_set by reflexivity
    | erewrite attr_of_put by reflexivity
    | rewrite H ].

Lemma remove_receipt_gone receipt_handle q :
  Forall (λ m, ReceiptHandle m ≠ receipt_handle) (remove_receipt receipt_handle q).
Proof.
  unfold remove_receipt. apply Forall_forall. intros m Hm.
  by apply list_elem_of_filter in Hm as [? _].
Qed.

(** *** Reading a message *)

Lemma subscript_raises body key e :
  subscript body key = inr e → is_JSONDecodeError e = false.
Proof.
  unfold subscript. destruct body; try (intros [= <-]; done).
  destruct (assoc key members); intros [= <-]; done.
Qed.

Lemma decode_Some json_loads m job_id file_path :
  decode json_loads m = Some (job_id, file_path) →
  ∃ body, json_loads (Body m) = Some body ∧
          subscript body "job_id" = inl job_id ∧
          subscript body "file_path" = inl file_path.
Proof.
  unfold decode. destruct (json_loads (Body m)) as [body|]; [|done].
  destruct (subscript body "job_id") as [j|] eqn:Hj; [|done].
  destruct (subscript body "file_path") as [f|] eqn:Hf; [|done].
  intros [= ? ?]. subst. exists body. by rewrite Hj, Hf.
Qed.

(** [decode] fails exactly on the messages the specification calls poison:
    a body that is not JSON, or one without [job_id] or [file_path]. *)
Lemma decode_None json_loads m :
  decode json_loads m = None ↔
  json_loads (Body m) = None ∨
  ∃ body, json_loads (Body m) = Some body ∧
          ((∃ e, subscript body "job_id" = inr e) ∨
           (∃ e, subscript body "file_path" = inr e)).
Proof.
  unfold decode. split.
  - destruct (json_loads (Body m)) as [body|]; [|by left].
    intros H. right. exists body. split; [done|].
    destruct (subscript body "job_id") as [j|e]; [|by eauto].
    destruct (subscript body "file_path") as [f|e]; [done|by eauto].
  - intros [->|(body & -> & [[e ->]|[e ->]])]; try done.
    by destruct (subscript body "job_id").
Qed.

(** *** The two scenarios of the specification *)

(** The blob is there: the job ends [completed] with its transcription, a
    Note record is written, the file and the message are gone. *)
Example valid_audio_completes :
  let r := Scenario.run Scenario.all_well Scenario.queued in
  result r = inl true ∧
  job_status (world r) "J1" = Some (AStr "completed") ∧
  attr_of (transcription_table (world r)) "J1" "transcription" =
    Some (AStr " Went for a walk.") ∧
  diary_note (world r) "J1" = Some (AStr "Date: today. Mood: calm.") ∧
  queue (world r) = [] ∧
  elements (files (world r)) = [].
Proof. vm_compute. done. Qed.

(** The calls of that run, in order. *)
Example valid_audio_calls :
  omap (λ e, match e.1 with Called c ok => Some (c, ok) | Logged _ _ => None end)
       (events (Scenario.run Scenario.all_well Scenario.queued)) =
  [ (ReceiveMessage, true);
    (UpdateItem (JStr "J1") [("job_status", AStr "downloading")], true);
    (CreateTempFile, true);
    (DownloadFile (JStr "uploads/J1/a.mp3") Scenario.temp_name, true);
    (UpdateItem (JStr "J1") [("job_status", AStr "transcribing")], true);
    (Transcribe Scenario.temp_name, true);
    (UpdateItem (JStr "J1") [("transcription", AStr " Went for a walk.");
                             ("job_status", AStr "generating_note")], true);
    (ChatCompletion (prompt_for " Went for a walk."), true);
    (PutItem (JStr "J1") [("diary_note", AStr "Date: today. Mood: calm.");
                          ("created_at", ANum 1700000000)], true);
    (UpdateItem (JStr "J1") [("job_status", AStr "completed")], true);
    (Unlink Scenario.temp_name, true);
    (DeleteMessage "AQEB-1", true) ].
Proof. reflexivity. Qed.

(** The blob is not there: the update that is to record the failure is
    refused, so the job stays in [downloading] without an error; no Note
    record is written, the message is gone. *)
Example missing_blob_fails :
  let r := Scenario.run Scenario.no_blob Scenario.queued in
  result r = inl true ∧
  job_status (world r) "J1" = Some (AStr "downloading") ∧
  job_error (world r) "J1" = None ∧
  notes_table (world r) !! "J1" = None ∧
  queue (world r) = [].
Proof. vm_compute. done. Qed.

(** [strip] takes the white space of Unicode off both ends (here a
    no-break space, a line feed, an em space and a tab) and leaves what is
    inside. *)
Example strip_unicode :
  strip (utf8 160 +:+ newline +:+ "Mood: " +:+ utf8 8195 +:+ "calm." +:+ utf8 8195
         +:+ String (ascii_of_nat 9) EmptyString) =
  "Mood: " +:+ utf8 8195 +:+ "calm.".
Proof. reflexivity. Qed.

(** *** Poison messages *)

(** C3.  A message whose body is not JSON, or lacks [job_id] or
    [file_path], is never deleted from the queue and causes no write to
    either table: the run returns [False] and leaves the world as it was. *)
Theorem poison_message_left_alone json_loads env w m :
  sqs_receive env = Returns (Some m) →
  decode json_loads m = None →
  let r := process_message json_loads env w in
  result r = inl false ∧
  world r = w ∧
  forallb (λ e, negb (is_delete e.1) && negb (is_store_write e.1)) (events r) = true.
Proof.
  intros Hrecv Hdec. unfold decode in Hdec. unfold_message.
  destruct (json_loads (Body m)) as [body|] eqn:Hbody.
  - destruct (subscript body "job_id") as [j|e1] eqn:Hj.
    + destruct (subscript body "file_path") as [f|e2] eqn:Hf; [done|].
      crunch. by rewrite (subscript_raises _ _ _ Hf).
    + crunch. by rewrite (subscript_raises _ _ _ Hj).
  - by crunch.
Qed.

Lemma poison_message_left_alone_witness :
  let r := Scenario.run Scenario.poisoned Scenario.queued in
  result r = inl false ∧
  world r = Scenario.queued ∧
  forallb (λ e, negb (is_delete e.1) && negb (is_store_write e.1)) (events r) = true.
Proof.
  apply (poison_message_left_alone Scenario.json_loads Scenario.poisoned
           Scenario.queued Scenario.poison); reflexivity.
Defined.

(** *** Terminal states *)

Lemma deleted_only_when_terminal_app job_id evs1 evs2 :
  deleted_only_when_terminal job_id (evs1 ++ evs2) =
  deleted_only_when_terminal job_id evs1 && deleted_only_when_terminal job_id evs2.
Proof. apply forallb_app. Qed.

Lemma no_delete_terminal job_id evs :
  forallb (λ e, negb (is_delete e.1)) evs = true →
  deleted_only_when_terminal job_id evs = true.
Proof.
  unfold deleted_only_when_terminal. induction evs as [|[ev w] evs IH]; [done|].
  simpl. intros [Hev Hevs]%andb_prop. rewrite IH by done.
  by destruct (is_delete ev).
Qed.

Lemma count_terminal_writes_app evs1 evs2 :
  count_terminal_writes (evs1 ++ evs2) =
  (count_terminal_writes evs1 + count_terminal_writes evs2)%nat.
Proof. unfold count_terminal_writes. by rewrite List.filter_app, length_app. Qed.


(** When the blob is fetched and transcribed and the writes that record
    the end of the job go through, [process_file] leaves the job in a
    terminal status, written once, and does not touch the queue. *)
Lemma file_terminal env job_id file_path temp_file w transcription :
  s3_download env = Returns tt →
  whisper_transcribe env = Returns transcription →
  dynamo_write env PutNote = Returns tt →
  dynamo_write env SetCompleted = Returns tt →
  let r := process_file env (JStr job_id) file_path temp_file w in
  result r = inl tt ∧
  terminal (job_status (world r) job_id) = true ∧
  forallb (λ e, negb (is_delete e.1)) (events r) = true ∧
  count_terminal_writes (events r) = 1%nat.
Proof.
  intros Hfetch Htranscribe Hput Hcompleted r. subst r.
  hide_goal (process_file env (JStr job_id) file_path temp_file w).
  unfold_file. crunch.
  all: show_goal; simpl; split; [done|]; split; [by statuses I|done].
Qed.

(** C1, as the code has it.  When the job identifier is a string, the
    blob is fetched and transcribed, and the writes that record the end of
    the job go through, every [delete_message] of the run is made with the
    Job record in a terminal status. *)
Theorem delete_after_terminal json_loads env w m job_id file_path transcription :
  sqs_receive env = Returns (Some m) →
  decode json_loads m = Some (JStr job_id, file_path) →
  s3_download env = Returns tt →
  whisper_transcribe env = Returns transcription →
  dynamo_write env PutNote = Returns tt →
  dynamo_write env SetCompleted = Returns tt →
  deleted_only_when_terminal job_id (events (process_message json_loads env w)) = true.
Proof.
  intros Hrecv (body & Hbody & Hid & Hpath)%decode_Some Hfetch Htranscribe Hput Hcompleted.
  unfold_message.
  crunch_with (λ f p w, file_terminal env job_id f p w transcription
                 Hfetch Htranscribe Hput Hcompleted).
  all: try done.
  all: simpl in Hfile; destruct Hfile as (-> & Hterminal & Hnodelete & _); simpl.
  all: rewrite ?deleted_only_when_terminal_app; simpl.
  all: rewrite (no_delete_terminal _ _ Hnodelete).
  all: unfold job_status in *; simpl; by rewrite Hterminal.
Qed.

Lemma delete_after_terminal_witness :
  deleted_only_when_terminal "J1"
    (events (Scenario.run Scenario.all_well Scenario.queued)) = true.
Proof.
  apply (delete_after_terminal Scenario.json_loads Scenario.all_well
           Scenario.queued Scenario.dispatch_J1 "J1" (JStr "uploads/J1/a.mp3")
           " Went for a walk."); reflexivity.
Defined.

(** C1 as stated fails: the write of [completed] raises, the handler logs
    it, and the message is deleted with the job in [generating_note]. *)
Lemma delete_before_terminal :
  let env := Scenario.with_dynamo_write (Scenario.fails_at SetCompleted) Scenario.all_well in
  let r := Scenario.run env Scenario.queued in
  result r = inl true ∧
  queue (world r) = [] ∧
  job_status (world r) "J1" = Some (AStr "generating_note") ∧
  deleted_only_when_terminal "J1" (events r) = false.
Proof. vm_compute. done. Qed.




(** *** A blob that cannot be fetched *)

Lemma file_fetch_fails env job_id file_path temp_file w msg :
  s3_download env = Raises msg →
  let r := process_file env (JStr job_id) file_path temp_file w in
  result r = inl tt ∧
  transcription_table (world r) = transcription_table w ∧
  notes_table (world r) = notes_table w ∧
  queue (world r) = queue w ∧
  existsb (λ e, error_write_refused e.1) (events r) = true ∧
  forallb (λ e, negb (is_put_item e.1)) (events r) = true.
Proof.
  intros Hfetch r. subst r.
  hide_goal (process_file env (JStr job_id) file_path temp_file w).
  unfold_file. crunch.
  all: show_goal; simpl; by repeat split.
Qed.

(** C4: what the code does instead.  For a dispatch with a string job
    identifier whose blob fetch raises, once the temporary file is
    created, the handler of lines 142-155 sets out to record the failure
    and the store refuses the update, whose expression names the reserved
    word [error].  The Job record is left as the write of [downloading]
    left it, in [downloading] when that write went through, and with the
    error field it had before the run.  No Note record is written, and
    [delete_message] is called for the message and removes it when that
    call returns. *)
Theorem blob_fetch_failure json_loads env w m job_id file_path temp_file msg :
  sqs_receive env = Returns (Some m) →
  decode json_loads m = Some (JStr job_id, file_path) →
  tmp_create env = Returns temp_file →
  s3_download env = Raises msg →
  let r := process_message json_loads env w in
  existsb (λ e, error_write_refused e.1) (events r) = true ∧
  job_status (world r) job_id =
    match dynamo_write env SetDownloading with
    | Returns _ => Some (AStr "downloading")
    | Raises _ => job_status w job_id
    end ∧
  job_error (world r) job_id = job_error w job_id ∧
  notes_table (world r) = notes_table w ∧
  forallb (λ e, negb (is_put_item e.1)) (events r) = true ∧
  existsb (λ e, deletes (ReceiptHandle m) e.1) (events r) = true ∧
  (sqs_delete env = Returns tt →
   Forall (λ m', ReceiptHandle m' ≠ ReceiptHandle m) (queue (world r))).
Proof.
  intros Hrecv (body & Hbody & Hid & Hpath)%decode_Some Htmp Hfetch.
  unfold_message.
  crunch_with (λ f p w, file_fetch_fails env job_id f p w msg Hfetch).
  all: simpl in Hfile;
    destruct Hfile as (-> & Htable & Hnotes & Hqueue & Hrefused & Hnoput); simpl.
  all: unfold job_status, job_error in *; simpl.
  all: rewrite ?forallb_app, ?existsb_app, Hnoput, Hrefused, Htable; simpl.
  all: rewrite String.eqb_refl, ?orb_true_r.
  all: split_and!; try done.
  all: try (by erewrite attr_of_upsert_set by reflexivity).
  all: try (by other_attr).
  all: intros _; apply remove_receipt_gone.
Qed.

Lemma blob_fetch_failure_witness :
  let r := Scenario.run Scenario.no_blob Scenario.queued in
  existsb (λ e, error_write_refused e.1) (events r) = true ∧
  job_status (world r) "J1" = Some (AStr "downloading") ∧
  job_error (world r) "J1" = job_error Scenario.queued "J1" ∧
  notes_table (world r) = notes_table Scenario.queued ∧
  forallb (λ e, negb (is_put_item e.1)) (events r) = true ∧
  existsb (λ e, deletes "AQEB-1" e.1) (events r) = true ∧
  (sqs_delete Scenario.no_blob = Returns tt →
   Forall (λ m', ReceiptHandle m' ≠ "AQEB-1") (queue (world r))).
Proof.
  apply (blob_fetch_failure Scenario.json_loads Scenario.no_blob
           Scenario.queued Scenario.dispatch_J1 "J1" (JStr "uploads/J1/a.mp3")
           Scenario.temp_name
           "An error occurred (404) when calling the HeadObject operation: Not Found");
    reflexivity.
Defined.

(** *** A note generator that fails *)

Lemma file_note_fails env job_id file_path temp_file w transcription msg :
  s3_download env = Returns tt →
  whisper_transcribe env = Returns transcription →
  openai_chat env (prompt_for transcription) = Raises msg →
  dynamo_write env PutNote = Returns tt →
  dynamo_write env SetCompleted = Returns tt →
  let r := process_file env (JStr job_id) file_path temp_file w in
  result r = inl tt ∧
  job_status (world r) job_id = Some (AStr "completed") ∧
  diary_note (world r) job_id = Some (AStr ("Error generating diary note: " +:+ msg)).
Proof.
  intros Hfetch Htranscribe Hchat Hput Hcompleted r. subst r.
  hide_goal (process_file env (JStr job_id) file_path temp_file w).
  unfold_file. crunch.
  all: show_goal; simpl; repeat split; try done; by statuses I.
Qed.

(** C5, as the code has it.  For a dispatch with a string job identifier,
    when the blob is fetched and transcribed and the note generator raises
    [msg], then, provided the temporary file is created and the writes of
    the note and of the [completed] status go through, the Job record ends
    in status [completed] and the Note record's [diary_note] is the text
    [Error generating diary note: msg]. *)
Theorem note_generator_failure json_loads env w m job_id file_path temp_file
    transcription msg :
  sqs_receive env = Returns (Some m) →
  decode json_loads m = Some (JStr job_id, file_path) →
  tmp_create env = Returns temp_file →
  s3_download env = Returns tt →
  whisper_transcribe env = Returns transcription →
  openai_chat env (prompt_for transcription) = Raises msg →
  dynamo_write env PutNote = Returns tt →
  dynamo_write env SetCompleted = Returns tt →
  let r := process_message json_loads env w in
  job_status (world r) job_id = Some (AStr "completed") ∧
  diary_note (world r) job_id = Some (AStr ("Error generating diary note: " +:+ msg)).
Proof.
  intros Hrecv (body & Hbody & Hid & Hpath)%decode_Some Htmp Hfetch Htranscribe
    Hchat Hput Hcompleted.
  unfold_message.
  crunch_with (λ f p w, file_note_fails env job_id f p w transcription msg
                          Hfetch Htranscribe Hchat Hput Hcompleted).
  all: simpl in Hfile; destruct Hfile as (-> & Hstatus & Hnote); simpl.
  all: unfold job_status, diary_note in *; simpl; done.
Qed.

Lemma note_generator_failure_witness :
  let r := Scenario.run Scenario.no_note Scenario.queued in
  job_status (world r) "J1" = Some (AStr "completed") ∧
  diary_note (world r) "J1" =
    Some (AStr ("Error generating diary note: " +:+ "Connection error.")).
Proof.
  apply (note_generator_failure Scenario.json_loads Scenario.no_note
           Scenario.queued Scenario.dispatch_J1 "J1" (JStr "uploads/J1/a.mp3")
           Scenario.temp_name " Went for a walk." "Connection error.");
    reflexivity.
Defined.

(** C5 as stated fails: when [put_item] raises, the update to [completed]
    in the same [try] is skipped; the job stays in [generating_note] and
    has no Note record. *)
Lemma note_generator_failure_unrecorded :
  let env := Scenario.with_dynamo_write (Scenario.fails_at PutNote) Scenario.no_note in
  let r := Scenario.run env Scenario.queued in
  openai_chat env (prompt_for " Went for a walk.") = Raises "Connection error." ∧
  result r = inl true ∧
  job_status (world r) "J1" = Some (AStr "generating_note") ∧
  notes_table (world r) !! "J1" = None.
Proof. vm_compute. done. Qed.

(** *** The temporary file *)

Lemma until_first_app p evs1 evs2 :
  forallb (λ e, negb (p e.1)) evs1 = true →
  until_first p (evs1 ++ evs2) = evs1 ++ until_first p evs2.
Proof.
  induction evs1 as [|e evs1 IH]; [done|]. simpl.
  intros [He Hevs]%andb_prop. destruct (p e.1); [done|]. by rewrite IH.
Qed.

Lemma gone_after_unlink (fs : gset string) path : path ∉ fs ∖ {[ path ]}.
Proof. rewrite elem_of_difference, elem_of_singleton. tauto. Qed.

(** Whatever happens in [process_file], it calls [unlink] on the temporary
    file, and the file is gone when that call returns. *)
Lemma file_unlinked env job file_path temp_file w :
  let r := process_file env job file_path temp_file w in
  result r = inl tt ∧
  existsb (λ e, is_unlink temp_file e.1) (events r) = true ∧
  forallb (λ e, negb (is_delete e.1)) (events r) = true ∧
  (os_unlink env = Returns tt → temp_file ∉ files (world r)).
Proof.
  intros r. subst r.
  hide_goal (process_file env job file_path temp_file w).
  unfold_file. destruct (key_of job) eqn:Hkey. all: crunch.
  all: show_goal; simpl; rewrite String.eqb_refl, ?orb_true_r.
  all: repeat split; try done.
  all: intros _; apply gone_after_unlink.
Qed.

(** C9, as the code has it.  Once the temporary file is created, on every
    path through the handler [unlink] is called on it before any
    [delete_message]; the file is gone when that call returns (when it
    raises, a warning is logged and the run goes on). *)
Theorem temp_file_unlinked json_loads env w m job file_path temp_file :
  sqs_receive env = Returns (Some m) →
  decode json_loads m = Some (job, file_path) →
  tmp_create env = Returns temp_file →
  let r := process_message json_loads env w in
  existsb (λ e, is_unlink temp_file e.1) (until_first is_delete (events r)) = true ∧
  (os_unlink env = Returns tt → temp_file ∉ files (world r)).
Proof.
  intros Hrecv (body & Hbody & Hid & Hpath)%decode_Some Htmp.
  unfold_message. destruct (key_of job) eqn:Hkey.
  all: crunch_with (λ f p w, file_unlinked env job f p w).
  all: simpl in Hfile; destruct Hfile as (-> & Hunlink & Hnodelete & Hgone); simpl.
  all: rewrite <-?app_assoc, (until_first_app _ _ _ Hnodelete), existsb_app, Hunlink.
  all: by rewrite ?orb_true_r.
Qed.

Lemma temp_file_unlinked_witness :
  let r := Scenario.run Scenario.no_blob Scenario.queued in
  existsb (λ e, is_unlink Scenario.temp_name e.1)
          (until_first is_delete (events r)) = true ∧
  (os_unlink Scenario.no_blob = Returns tt → Scenario.temp_name ∉ files (world r)).
Proof.
  apply (temp_file_unlinked Scenario.json_loads Scenario.no_blob
           Scenario.queued Scenario.dispatch_J1 (JStr "J1") (JStr "uploads/J1/a.mp3")
           Scenario.temp_name); reflexivity.
Defined.

(** C9 as stated fails: when [unlink] raises, the failure is logged, the
    message is deleted and the run returns with the file still there. *)
Lemma temp_file_left_behind :
  let r := Scenario.run Scenario.stuck_file Scenario.queued in
  result r = inl true ∧
  queue (world r) = [] ∧
  elements (files (world r)) = [Scenario.temp_name].
Proof. vm_compute. done. Qed.

(** *** The order of the states *)

Lemma advances_along_app job_id s evs1 evs2 :
  advances_along job_id s (evs1 ++ evs2) =
  advances_along job_id s evs1 &&
  advances_along job_id (final_status job_id s evs1) evs2.
Proof.
  revert s. induction evs1 as [|[ev w] evs1 IH]; intros s; [done|].
  simpl. by rewrite IH, andb_assoc.
Qed.

Lemma same_status_refl s : same_status s s = true.
Proof. unfold same_status. by apply bool_decide_eq_true. Qed.

Lemma early_cases s :
  early s = true →
  s = None ∨ s = Some (AStr "queued") ∨ s = Some (AStr "downloading").
Proof.
  destruct s as [[x|]|]; simpl; try done; [|by left].
  intros [H|H]%orb_prop; apply String.eqb_eq in H; subst; auto.
Qed.

(** From a job that is not yet past [downloading], [process_file] only
    moves the status forward, and the last status seen is the one it
    leaves. *)
Lemma file_advances env job_id file_path temp_file w :
  let r := process_file env (JStr job_id) file_path temp_file w in
  result r = inl tt ∧
  (early (job_status w job_id) = true →
   advances_along job_id (job_status w job_id) (events r) = true ∧
   final_status job_id (job_status w job_id) (events r) = job_status (world r) job_id).
Proof.
  intros r. subst r. split; [apply file_unlinked|].
  intros Hcases%early_cases.
  remember (job_status w job_id) as s eqn:Hs. symmetry in Hs.
  hide_goal (process_file env (JStr job_id) file_path temp_file w).
  unfold_file. crunch.
  all: show_goal; simpl; unfold job_status in *; simpl.
  all: repeat first [rewrite Hs | erewrite attr_of_upsert_set by reflexivity].
  all: destruct Hcases as [->|[->| ->]]; repeat split; reflexivity.
Qed.

(** C7, as the code has it.  Within one run, for the job of the message,
    starting with no status or with [queued]: the status of the Job record
    seen after each call is the one before it, a later state of the order,
    or [error] reached from a state that is not terminal. *)
Theorem status_advances_within_run json_loads env w m job_id file_path :
  sqs_receive env = Returns (Some m) →
  decode json_loads m = Some (JStr job_id, file_path) →
  job_status w job_id = None ∨ job_status w job_id = Some (AStr "queued") →
  advances_along job_id (job_status w job_id)
    (events (process_message json_loads env w)) = true.
Proof.
  intros Hrecv (body & Hbody & Hid & Hpath)%decode_Some Hs.
  remember (job_status w job_id) as s eqn:Hw. symmetry in Hw.
  unfold_message.
  crunch_with (λ f p w, file_advances env job_id f p w).
  all: try (simpl in Hfile; destruct Hfile as (-> & Hfile)); simpl.
  all: rewrite <-?app_assoc, ?advances_along_app; simpl.
  all: unfold job_status in *; simpl in *.
  all: repeat first
         [ rewrite Hw
         | erewrite attr_of_upsert_set by reflexivity
         | erewrite attr_of_upsert_set in Hfile by reflexivity
         | rewrite Hw in Hfile ].
  all: simpl in *; destruct Hs as [-> | ->].
  all: try (destruct Hfile as [Hadv Hfinal]; [reflexivity|]; rewrite Hadv, Hfinal).
  all: rewrite ?same_status_refl; reflexivity.
Qed.

Lemma status_advances_within_run_witness :
  advances_along "J1" (job_status Scenario.queued "J1")
    (events (Scenario.run Scenario.all_well Scenario.queued)) = true.
Proof.
  apply (status_advances_within_run Scenario.json_loads Scenario.all_well
           Scenario.queued Scenario.dispatch_J1 "J1" (JStr "uploads/J1/a.mp3"));
    [reflexivity|reflexivity|right; reflexivity].
Defined.

(** C7 as stated fails: the writes are unconditional.  A job that is
    [completed] whose message comes again, this time with the blob out of
    reach, is set back to [downloading] and stays there. *)
Lemma terminal_status_overwritten :
  let w1 := world (Scenario.run Scenario.all_well Scenario.queued) in
  let r2 := Scenario.run Scenario.no_blob w1 in
  job_status w1 "J1" = Some (AStr "completed") ∧
  job_status (world r2) "J1" = Some (AStr "downloading") ∧
  advances_along "J1" (job_status w1 "J1") (events r2) = false.
Proof. vm_compute. done. Qed.


(** *** Redelivery *)

Lemma apply_sets_then job_id a b (t : Table) :
  apply_sets job_id b (apply_sets job_id a t) = apply_sets job_id (then_sets a b) t.
Proof. destruct a, b; simpl; try done. apply upsert_upsert. Qed.

Lemma apply_put_then job_id a b (t : Table) :
  apply_put job_id b (apply_put job_id a t) = apply_put job_id (then_put a b) t.
Proof. destruct a, b; simpl; try done. apply insert_insert_eq. Qed.

Section Steady.
Context {A B : Type} (job_id : string).

Lemma steady_ret (a : A) : steady job_id (λ _, ret a).
Proof. by exists (inl a), None, None. Qed.

Lemma steady_raise (e : exn) : steady job_id (λ _, raise (A:=A) e).
Proof. by exists (inr e), None, None. Qed.

Lemma steady_lift (r : A + exn) : steady job_id (λ _, lift r).
Proof. by exists r, None, None. Qed.

Lemma steady_log level line : steady job_id (λ _, log level line).
Proof. by exists (inl tt), None, None. Qed.

(** A call that leaves the tables alone. *)
Lemma steady_call (c0 : Call) (o : outcome A) (effect : A → World → World) :
  (∀ a w, transcription_table (effect a w) = transcription_table w ∧
          notes_table (effect a w) = notes_table w) →
  steady job_id (λ _, call c0 o effect).
Proof.
  intros Heff. destruct o as [a|msg].
  - exists (inl a), None, None. intros c w. simpl. by destruct (Heff a w).
  - by exists (inr (Error msg)), None, None.
Qed.

Lemma steady_update_item env s job sets :
  (∀ key, key_of job = Some key → key = job_id) →
  steady job_id (λ _, update_item env s job sets).
Proof.
  intros Hkey. unfold update_item. destruct (key_of job) as [key|].
  - rewrite (Hkey key eq_refl). destruct (names_reserved_word sets).
    + by exists (inr (Error ReservedKeyword)), None, None.
    + destruct (dynamo_write env s) as [[]|msg].
      * by exists (inl tt), (Some sets), None.
      * by exists (inr (Error msg)), None, None.
  - by exists (inr (Error ValidationException)), None, None.
Qed.

Lemma steady_put_item env s job (attrs : Z → list (string * Attr)) :
  (∀ key, key_of job = Some key → key = job_id) →
  steady job_id (λ c, put_item env s job (attrs c)).
Proof.
  intros Hkey. unfold put_item. destruct (key_of job) as [key|].
  - rewrite (Hkey key eq_refl). destruct (dynamo_write env s) as [[]|msg].
    + by exists (inl tt), None, (Some attrs).
    + by exists (inr (Error msg)), None, None.
  - by exists (inr (Error ValidationException)), None, None.
Qed.

(** [bind] when the first part is known to end in [res]. *)
Lemma steady_bind_yields (m : Z → M A) (k : Z → A → M B) res :
  yields m res → steady job_id m →
  match res with inl a => steady job_id (λ c, k c a) | inr _ => True end →
  steady job_id (λ c, bind (m c) (k c)).
Proof.
  intros Hres (res0 & sets & attrs & Hm) Hk. destruct res as [a|e].
  - destruct Hk as (res' & sets' & attrs' & Hka).
    exists res', (then_sets sets sets'), (then_put attrs attrs').
    intros c w. unfold bind. destruct (Hm c w) as (Hr & Ht & Hn).
    specialize (Hres c w).
    destruct (m c w) as [r w1 evs1]. simpl in *. subst r.
    destruct (Hka c w1) as (Hr' & Ht' & Hn').
    destruct (k c a w1) as [r' w2 evs2]. simpl in *.
    rewrite Ht', Hn', Ht, Hn, apply_sets_then, apply_put_then.
    by destruct attrs, attrs'.
  - exists (inr e), sets, attrs. intros c w. unfold bind.
    destruct (Hm c w) as (Hr & Ht & Hn). specialize (Hres c w).
    destruct (m c w) as [r w1 evs1]. simpl in *. by subst r.
Qed.

Lemma steady_bind (m : Z → M A) (k : Z → A → M B) :
  steady job_id m → (∀ a, steady job_id (λ c, k c a)) →
  steady job_id (λ c, bind (m c) (k c)).
Proof.
  intros Hm Hk. destruct Hm as (res & sets & attrs & Hm).
  apply (steady_bind_yields m k res).
  - intros c w. by destruct (Hm c w).
  - by exists res, sets, attrs.
  - destruct res; [apply Hk|done].
Qed.

Lemma steady_try_except (body : Z → M A) (handler : Z → exn → M A) :
  steady job_id body → (∀ e, steady job_id (λ c, handler c e)) →
  steady job_id (λ c, try_except (body c) (handler c)).
Proof.
  intros (res & sets & attrs & Hm) Hk. destruct res as [a|e].
  - exists (inl a), sets, attrs. intros c w. unfold try_except.
    destruct (Hm c w) as (Hr & Ht & Hn).
    destruct (body c w) as [r w1 evs1]. simpl in *. by subst r.
  - destruct (Hk e) as (res' & sets' & attrs' & Hke).
    exists res', (then_sets sets sets'), (then_put attrs attrs').
    intros c w. unfold try_except. destruct (Hm c w) as (Hr & Ht & Hn).
    destruct (body c w) as [r w1 evs1]. simpl in *. subst r.
    destruct (Hke c w1) as (Hr' & Ht' & Hn').
    destruct (handler c e w1) as [r' w2 evs2]. simpl in *.
    rewrite Ht', Hn', Ht, Hn, apply_sets_then, apply_put_then.
    by destruct attrs, attrs'.
Qed.

Lemma steady_try_finally (body : Z → M A) (final : Z → M unit) :
  steady job_id body → steady job_id final →
  steady job_id (λ c, try_finally (body c) (final c)).
Proof.
  intros (res & sets & attrs & Hm) (res' & sets' & attrs' & Hf).
  exists (match res' with inl _ => res | inr e => inr e end),
    (then_sets sets sets'), (then_put attrs attrs').
  intros c w. unfold try_finally. destruct (Hm c w) as (Hr & Ht & Hn).
  destruct (body c w) as [r w1 evs1]. simpl in *. subst r.
  destruct (Hf c w1) as (Hr' & Ht' & Hn').
  destruct (final c w1) as [r' w2 evs2]. simpl in *. subst r'.
  destruct res' as [[]|e]; simpl;
    rewrite Ht', Hn', Ht, Hn, apply_sets_then, apply_put_then;
    by destruct attrs, attrs'.
Qed.

End Steady.

Create HintDb steady discriminated.

#[local] Hint Resolve steady_ret steady_raise steady_lift steady_log : steady.

Ltac steady_step :=
  first
    [ solve [auto with steady]
    | apply steady_update_item; assumption
    | apply (steady_put_item _ _ _ _ (λ c, _)); assumption
    | apply steady_call; done
    | apply (steady_bind _ (λ c, _) (λ c a, _)); [|intros ?]
    | apply (steady_try_except _ (λ c, _) (λ c e, _)); [|intros ?]
    | apply (steady_try_finally _ (λ c, _) (λ c, _)) ].

Lemma steady_process_file env job_id job file_path temp_file :
  (∀ key, key_of job = Some key → key = job_id) →
  steady job_id (λ c, process_file (with_clock c env) job file_path temp_file).
Proof.
  intros Hkey.
  unfold process_file, generate_personal_diary, download_file, transcribe,
    chat_completions_create, unlink, warn_dynamo. simpl.
  repeat steady_step.
Qed.

Ltac steady_auto :=
  repeat first [apply steady_process_file; assumption | steady_step].

Ltac steady_known :=
  eapply (steady_bind_yields _ (λ c, _) (λ c a, _));
  [intros ? ?; simpl; reflexivity|steady_auto|simpl].

Ltac steady_handlers :=
  apply (steady_try_except _ (λ c, _) (λ c e, _));
  [|let e := fresh "e" in intros e; try destruct (is_JSONDecodeError e); steady_auto].

Lemma key_of_job job :
  ∃ job_id, ∀ key, key_of job = Some key → key = job_id.
Proof.
  destruct (key_of job) as [key|].
  - exists key. by intros ? [= <-].
  - by exists "".
Qed.

(** What a run does to the tables does not depend on the world it starts
    from, and only the item it puts depends on the clock. *)
Lemma steady_process_message json_loads env :
  ∃ job_id, steady job_id (λ c, process_message json_loads (with_clock c env)).
Proof.
  unfold process_message, receive_message, try_except_only, Worker.loads,
    NamedTemporaryFile, delete_message, warn_dynamo. simpl.
  destruct (sqs_receive env) as [[m|]|msg] eqn:Hrecv.
  - destruct (json_loads (Body m)) as [body|] eqn:Hbody.
    + destruct (subscript body "job_id") as [job|e] eqn:Hjob.
      * destruct (key_of_job job) as [job_id Hkey]. exists job_id.
        steady_handlers. steady_known. rewrite Hbody.
        steady_handlers. steady_known. rewrite Hjob. steady_known.
        steady_auto.
      * exists "".
        steady_handlers. steady_known. rewrite Hbody.
        steady_handlers. steady_known. rewrite Hjob. by steady_known.
    + exists "".
      steady_handlers. steady_known. rewrite Hbody.
      steady_handlers. by steady_known.
  - exists "". steady_handlers. steady_known. steady_auto.
  - exists "". steady_handlers. by steady_known.
Qed.

(** C6, as the code has it.  When the external calls give the same
    outcomes in both runs, processing a message again leaves the Job table
    as the first run left it, and the Note table as one run at the later
    clock reading leaves it: the note is replaced, not added, and only its
    [created_at] moves. *)
Theorem redelivery_overwrites json_loads env t w :
  let r1 := process_message json_loads env w in
  let r2 := process_message json_loads (with_clock t env) (world r1) in
  transcription_table (world r2) = transcription_table (world r1) ∧
  notes_table (world r2) =
    notes_table (world (process_message json_loads (with_clock t env) w)).
Proof.
  destruct (steady_process_message json_loads env)
    as (job_id & res & sets & attrs & H).
  assert (Henv : with_clock (clock env) env = env) by by destruct env.
  intros r1 r2. subst r1 r2.
  pose proof (H (clock env) w) as (_ & Ht1 & Hn1). rewrite Henv in Ht1, Hn1.
  pose proof (H t w) as (_ & Ht & Hn).
  pose proof (H t (world (process_message json_loads env w))) as (_ & Ht2 & Hn2).
  rewrite Ht2, Hn2, Ht1, Hn1, Hn, apply_sets_then, apply_put_then. split.
  - destruct sets as [l|]; simpl; [|done]. unfold upsert. by rewrite set_attrs_twice.
  - by destruct attrs.
Qed.

(** C6 as stated fails: the item that is put carries [int(time.time())],
    so the second run leaves another Note record than the first. *)
Lemma redelivery_moves_created_at :
  let r1 := Scenario.run Scenario.all_well Scenario.queued in
  let r2 := Scenario.run (with_clock 1700000600 Scenario.all_well) (world r1) in
  attr_of (notes_table (world r1)) "J1" "created_at" = Some (ANum 1700000000) ∧
  attr_of (notes_table (world r2)) "J1" "created_at" = Some (ANum 1700000600) ∧
  notes_table (world r2) ≠ notes_table (world r1).
Proof.
  assert (H1 : attr_of (notes_table (world (Scenario.run Scenario.all_well Scenario.queued)))
                 "J1" "created_at" = Some (ANum 1700000000)) by by vm_compute.
  assert (H2 : attr_of (notes_table (world (Scenario.run (with_clock 1700000600 Scenario.all_well)
                 (world (Scenario.run Scenario.all_well Scenario.queued)))))
                 "J1" "created_at" = Some (ANum 1700000600)) by by vm_compute.
  split; [done|]. split; [done|]. intros Heq. rewrite Heq, H1 in H2. discriminate.
Qed.

(** *** The read endpoints *)

(** C2: what the code does for a job identifier the table does not know.
    The handler raises [HTTPException(404)] inside its own [try]; the
    [except Exception] clause catches it, finds that its text does not
    start with the ResourceNotFoundException prefix, and answers 500. *)
Theorem check_status_unknown_job db job_id :
  App.get_item db App.AudioTranscriptions job_id = inl None →
  App.check_status db job_id = App.Failed 500 "404: Job not found".
Proof. intros H. unfold App.check_status. by rewrite H. Qed.

Lemma check_status_unknown_job_witness :
  App.check_status Scenario.note_missing "J2" = App.Failed 500 "404: Job not found".
Proof.
  apply (check_status_unknown_job Scenario.note_missing "J2"). reflexivity.
Defined.

(** A known job gets its stored status, whatever it is. *)
Lemma check_status_known_job db job_id item :
  App.get_item db App.AudioTranscriptions job_id = inl (Some item) →
  App.check_status db job_id =
    App.OK [("job_id", AStr job_id);
            ("status", get item "job_status" (AStr "unknown"));
            ("file_name", get item "file_name" (AStr ""))].
Proof. intros H. unfold App.check_status. by rewrite H. Qed.

(** The 404 is only reached when the table itself is missing. *)
Lemma check_status_missing_table db job_id rest :
  App.get_raises db App.AudioTranscriptions =
    Some ("An error occurred (ResourceNotFoundException)" +:+ rest) →
  App.check_status db job_id = App.Failed 404 "Job not found".
Proof.
  intros H. unfold App.check_status, App.get_item. rewrite H. simpl.
  by destruct rest.
Qed.

(** C10.  When the lookups answer with a Job record in status [completed]
    and with no Note record, [get_result] returns the stored transcription
    and the message that note generation is pending. *)
Theorem get_result_note_pending db job_id item :
  App.get_item db App.AudioTranscriptions job_id = inl (Some item) →
  item !! "job_status" = Some (AStr "completed") →
  App.get_item db App.DiaryNotes job_id = inl None →
  App.get_result db job_id =
    App.OK [("job_id", AStr job_id);
            ("status", AStr "completed");
            ("transcription", get item "transcription" (AStr ""));
            ("message", AStr "Note generation pending")].
Proof.
  intros Hjob Hstatus Hnote. unfold App.get_result.
  rewrite Hjob, Hnote, Hstatus. by rewrite bool_decide_eq_false_2 by (by intros []).
Qed.

Lemma get_result_note_pending_witness :
  App.get_result Scenario.note_missing "J1" =
    App.OK [("job_id", AStr "J1");
            ("status", AStr "completed");
            ("transcription", AStr " Went for a walk.");
            ("message", AStr "Note generation pending")].
Proof.
  apply (get_result_note_pending Scenario.note_missing "J1" Scenario.completed_J1);
    reflexivity.
Defined.


(** ** The rest of the worker *)

Import Shape.

(** *** What a run is made of *)

(** [process_file] leaves the queue alone. *)
Lemma file_keeps_queue env job file_path temp_file w :
  queue (world (process_file env job file_path temp_file w)) = queue w.
Proof.
  hide_goal (process_file env job file_path temp_file w).
  unfold_file. destruct (key_of job) eqn:Hkey. all: crunch.
  all: show_goal; done.
Qed.

(** [process_file] never raises. *)
Lemma file_returns env job file_path temp_file w :
  result (process_file env job file_path temp_file w) = inl tt.
Proof. apply file_unlinked. Qed.

(** A run is one of three: nothing is processed; the write of
    [downloading] is tried and the temporary file cannot be made; or the
    file is processed and the message deleted. *)
Lemma process_message_shape json_loads env w :
  let r := process_message json_loads env w in
  (world r = w ∧ result r = inl false ∧
   (∀ m, sqs_receive env = Returns (Some m) → decode json_loads m = None)) ∨
  (∃ m job file_path,
     sqs_receive env = Returns (Some m) ∧
     decode json_loads m = Some (job, file_path) ∧
     let w1 := after_downloading env job w in
     match tmp_create env with
     | Raises _ => world r = w1 ∧ result r = inl false
     | Returns temp_file =>
         let rf := process_file env job file_path temp_file
                     (with_files (union {[ temp_file ]}) w1) in
         match sqs_delete env with
         | Returns _ =>
             world r = with_queue (remove_receipt (ReceiptHandle m)) (world rf) ∧
             result r = inl true
         | Raises _ => world r = world rf ∧ result r = inl false
         end
     end).
Proof.
  unfold decode, after_downloading. unfold_message.
  destruct (sqs_receive env) as [[m|]|msg] eqn:Hrecv; simpl;
    [|left; by repeat split..].
  destruct (json_loads (Body m)) as [body|] eqn:Hbody; simpl.
  2: { left. repeat split; try done. intros ? [= <-]. by rewrite Hbody. }
  destruct (subscript body "job_id") as [job|e] eqn:Hjob; simpl.
  2: { left. rewrite (subscript_raises _ _ _ Hjob). simpl.
       repeat split; try done. intros ? [= <-]. by rewrite Hbody, Hjob. }
  destruct (subscript body "file_path") as [fp|e] eqn:Hfp; simpl.
  2: { left. rewrite (subscript_raises _ _ _ Hfp). simpl.
       repeat split; try done. intros ? [= <-]. by rewrite Hbody, Hjob, Hfp. }
  right. exists m, job, fp. rewrite Hbody, Hjob, Hfp.
  split; [done|]. split; [done|].
  destruct (key_of job) as [key|] eqn:Hkey;
    destruct (dynamo_write env SetDownloading) as [[]|?] eqn:Hdownloading;
    destruct (tmp_create env) as [temp_file|?] eqn:Htmp;
    destruct (sqs_delete env) as [[]|?] eqn:Hdelete.
  all: crunch_with (λ f p w, file_returns env job f p w).
  all: try done.
  all: simpl in Hfile; subst rf; simpl; done.
Qed.

(** *** What the return value says *)

Lemma after_downloading_queue env job w :
  queue (after_downloading env job w) = queue w.
Proof.
  unfold after_downloading.
  by destruct (key_of job), (dynamo_write env SetDownloading).
Qed.

Lemma message_queue json_loads env w :
  let r := process_message json_loads env w in
  (result r = inl true ∧
   ∃ m, sqs_receive env = Returns (Some m) ∧
        sqs_delete env = Returns tt ∧
        queue (world r) = remove_receipt (ReceiptHandle m) (queue w)) ∨
  (result r = inl false ∧ queue (world r) = queue w).
Proof.
  intros r. subst r.
  destruct (process_message_shape json_loads env w)
    as [(-> & -> & _)|(m & job & fp & Hrecv & Hdec & H)]; [by right|].
  cbv zeta in H. destruct (tmp_create env) as [temp_file|msg].
  - destruct (sqs_delete env) as [[]|msg]; destruct H as [-> ->].
    + left. split; [done|]. exists m. repeat split; try done.
      unfold with_queue at 1. cbn [queue].
      by rewrite file_keeps_queue, <- (after_downloading_queue env job w).
    + right. split; [done|].
      by rewrite file_keeps_queue, <- (after_downloading_queue env job w).
  - destruct H as [-> ->]. right. split; [done|]. apply after_downloading_queue.
Qed.

(** X1.  [process_message] never raises.  It returns [True] only when
    [delete_message] returned, and then the queue has lost the messages of
    that receipt handle and nothing else; when it returns [False] the
    queue is as it was. *)
Theorem true_means_acknowledged json_loads env w :
  let r := process_message json_loads env w in
  match result r with
  | inl true =>
      ∃ m, sqs_receive env = Returns (Some m) ∧
           sqs_delete env = Returns tt ∧
           queue (world r) = remove_receipt (ReceiptHandle m) (queue w)
  | inl false => queue (world r) = queue w
  | inr _ => False
  end.
Proof.
  intros r. subst r.
  by destruct (message_queue json_loads env w) as [[-> H]|[-> H]].
Qed.

(** *** The loop *)

Lemma remove_receipt_sublist receipt_handle q :
  sublist (remove_receipt receipt_handle q) q.
Proof. apply sublist_filter. Qed.

Lemma turn_pause json_loads env w :
  let t := Loop.turn json_loads env w in
  (t.1 = None ∨ t.1 = Some 1%nat) ∧ sublist (queue t.2) (queue w).
Proof.
  unfold Loop.turn.
  destruct (message_queue json_loads env w) as [[-> (m & _ & _ & Hq)]|[-> Hq]]; simpl.
  - rewrite Hq. split; [by left|]. apply remove_receipt_sublist.
  - rewrite Hq. split; [by right|done].
Qed.

(** X2.  However its polls go, [main] goes through all of them, sleeps one
    second or not at all after each, never the five seconds of its own
    [except] clause, and never adds a message to the queue. *)
Theorem main_never_backs_off json_loads envs w :
  let (pauses, w') := Loop.main json_loads envs w in
  length pauses = length envs ∧
  Forall (λ p, p = None ∨ p = Some 1%nat) pauses ∧
  sublist (queue w') (queue w).
Proof.
  revert w. induction envs as [|env envs IH]; intros w; simpl.
  - by repeat split.
  - pose proof (turn_pause json_loads env w) as [Hpause Hqueue].
    destruct (Loop.turn json_loads env w) as [pause w1]. simpl in *.
    specialize (IH w1). destruct (Loop.main json_loads envs w1) as [pauses w2].
    destruct IH as (Hlen & Hall & Hsub). repeat split.
    + simpl. by rewrite Hlen.
    + by constructor.
    + by etrans.
Qed.

(** *** Other jobs, other attributes *)

Lemma file_other_jobs env job file_path temp_file w j :
  key_of job ≠ Some j →
  let r := process_file env job file_path temp_file w in
  transcription_table (world r) !! j = transcription_table w !! j ∧
  notes_table (world r) !! j = notes_table w !! j.
Proof.
  intros Hj r. subst r.
  hide_goal (process_file env job file_path temp_file w).
  unfold_file. destruct (key_of job) as [key|] eqn:Hkey. all: crunch.
  all: show_goal; simpl; unfold upsert.
  all: rewrite ?lookup_insert_ne by congruence; done.
Qed.

Lemma after_downloading_other env job w j :
  key_of job ≠ Some j →
  transcription_table (after_downloading env job w) !! j = transcription_table w !! j ∧
  notes_table (after_downloading env job w) = notes_table w.
Proof.
  intros Hj. unfold after_downloading.
  destruct (key_of job) as [key|]; [|done].
  destruct (dynamo_write env SetDownloading); [|done].
  simpl. unfold upsert. by rewrite lookup_insert_ne by congruence.
Qed.

(** X3.  A run changes nothing of the records of other jobs: in both
    tables, what is stored under any key but the job identifier of the
    message is as it was. *)
Theorem other_jobs_untouched json_loads env w m job file_path j :
  sqs_receive env = Returns (Some m) →
  decode json_loads m = Some (job, file_path) →
  key_of job ≠ Some j →
  let r := process_message json_loads env w in
  transcription_table (world r) !! j = transcription_table w !! j ∧
  notes_table (world r) !! j = notes_table w !! j.
Proof.
  intros Hrecv Hdec Hj r. subst r.
  destruct (process_message_shape json_loads env w)
    as [(_ & _ & Hpoison)|(m' & job' & fp' & Hrecv' & Hdec' & H)].
  { specialize (Hpoison m Hrecv). congruence. }
  assert (m' = m) as -> by congruence.
  assert (job' = job ∧ fp' = file_path) as [-> ->] by (split; congruence).
  cbv zeta in H.
  destruct (after_downloading_other env job w j Hj) as [Ht Hn].
  destruct (tmp_create env) as [temp_file|msg].
  - pose proof (file_other_jobs env job file_path temp_file
      (with_files (union {[ temp_file ]}) (after_downloading env job w)) j Hj) as [Ht' Hn'].
    cbv zeta in Ht', Hn'. simpl in Ht', Hn'.
    destruct (sqs_delete env) as [[]|msg]; destruct H as [-> _]; simpl.
    all: by rewrite Ht', Hn', Ht, Hn.
  - destruct H as [-> _]. by rewrite Ht, Hn.
Qed.

Lemma other_jobs_untouched_witness :
  let r := process_message Scenario.json_loads Scenario.all_well Cases.two_jobs in
  transcription_table (world r) !! "J0" = transcription_table Cases.two_jobs !! "J0" ∧
  notes_table (world r) !! "J0" = notes_table Cases.two_jobs !! "J0".
Proof.
  apply (other_jobs_untouched Scenario.json_loads Scenario.all_well Cases.two_jobs
           Scenario.dispatch_J1 (JStr "J1") (JStr "uploads/J1/a.mp3") "J0").
  - reflexivity.
  - reflexivity.
  - discriminate.
Defined.

Lemma not_written name :
  name ∉ written_attrs →
  name ≠ "job_id" ∧ name ≠ "job_status" ∧ name ≠ "transcription" ∧ name ≠ "error".
Proof.
  unfold written_attrs. rewrite !not_elem_of_cons. tauto.
Qed.

Lemma file_keeps_attrs env job_id file_path temp_file w name :
  name ∉ written_attrs →
  let r := process_file env (JStr job_id) file_path temp_file w in
  attr_of (transcription_table (world r)) job_id name =
  attr_of (transcription_table w) job_id name.
Proof.
  intros (Hid & Hstatus & Htranscription & Herror)%not_written r. subst r.
  hide_goal (process_file env (JStr job_id) file_path temp_file w).
  unfold_file. crunch.
  all: show_goal; simpl.
  all: repeat (etrans; [other_attr|]); done.
Qed.

Lemma after_downloading_attrs env job_id w name :
  name ∉ written_attrs →
  attr_of (transcription_table (after_downloading env (JStr job_id) w)) job_id name =
  attr_of (transcription_table w) job_id name.
Proof.
  intros (Hid & Hstatus & _)%not_written.
  unfold after_downloading. simpl.
  destruct (dynamo_write env SetDownloading); [|done]. simpl. other_attr.
Qed.

(** X4.  A run keeps what else is stored with the job: every attribute of
    its record other than [job_id], [job_status], [transcription] and
    [error] (the file name and path the upload stored, say) is after the
    run what it was before. *)
Theorem other_attributes_kept json_loads env w m job_id file_path name :
  sqs_receive env = Returns (Some m) →
  decode json_loads m = Some (JStr job_id, file_path) →
  name ∉ written_attrs →
  let r := process_message json_loads env w in
  attr_of (transcription_table (world r)) job_id name =
  attr_of (transcription_table w) job_id name.
Proof.
  intros Hrecv Hdec Hname r. subst r.
  destruct (process_message_shape json_loads env w)
    as [(_ & _ & Hpoison)|(m' & job' & fp' & Hrecv' & Hdec' & H)].
  { specialize (Hpoison m Hrecv). congruence. }
  assert (m' = m) as -> by congruence.
  assert (job' = JStr job_id ∧ fp' = file_path) as [-> ->] by (split; congruence).
  cbv zeta in H.
  pose proof (after_downloading_attrs env job_id w name Hname) as Hdownloading.
  destruct (tmp_create env) as [temp_file|msg].
  - pose proof (file_keeps_attrs env job_id file_path temp_file
      (with_files (union {[ temp_file ]}) (after_downloading env (JStr job_id) w))
      name Hname) as Hfile.
    cbv zeta in Hfile. simpl in Hfile.
    destruct (sqs_delete env) as [[]|msg]; destruct H as [-> _]; simpl.
    all: by rewrite Hfile.
  - by destruct H as [-> _].
Qed.

Lemma other_attributes_kept_witness :
  let r := process_message Scenario.json_loads Scenario.all_well Scenario.queued in
  attr_of (transcription_table (world r)) "J1" "file_name" =
  attr_of (transcription_table Scenario.queued) "J1" "file_name".
Proof.
  apply (other_attributes_kept Scenario.json_loads Scenario.all_well Scenario.queued
           Scenario.dispatch_J1 "J1" (JStr "uploads/J1/a.mp3") "file_name").
  - reflexivity.
  - reflexivity.
  - apply (bool_decide_unpack _). by vm_compute.
Defined.

(** *** The note *)

Lemma file_note env job file_path temp_file w :
  let r := process_file env job file_path temp_file w in
  notes_table (world r) = notes_table w ∨
  ∃ job_id transcription,
    key_of job = Some job_id ∧
    s3_download env = Returns tt ∧
    whisper_transcribe env = Returns transcription ∧
    dynamo_write env PutNote = Returns tt ∧
    notes_table (world r) =
      <[job_id := note_item env job_id (diary_of env transcription)]> (notes_table w).
Proof.
  intros r. subst r.
  hide_goal (process_file env job file_path temp_file w).
  unfold_file. destruct (key_of job) as [key|] eqn:Hkey. all: crunch.
  all: show_goal; simpl.
  all: try by left.
  all: right; eexists _, _; split_and!; try done.
  all: unfold note_item, diary_of.
  all: match goal with H : openai_chat _ _ = _ |- _ => by rewrite H end.
Qed.

Lemma after_downloading_notes env job w :
  notes_table (after_downloading env job w) = notes_table w.
Proof.
  unfold after_downloading.
  by destruct (key_of job), (dynamo_write env SetDownloading).
Qed.

(** X5.  The table of notes is written at most once in a run, and only
    after the blob was fetched and transcribed: either it is as it was, or
    the message named a job by a string, the fetch, the transcription and
    the [put_item] returned, and the one change is the item of that job,
    replaced as a whole by the key, the note ([generate_personal_diary]'s
    answer, or the text of its failure) and the time of the clock. *)
Theorem note_written_after_transcription json_loads env w :
  let r := process_message json_loads env w in
  notes_table (world r) = notes_table w ∨
  ∃ m job_id file_path transcription,
    sqs_receive env = Returns (Some m) ∧
    decode json_loads m = Some (JStr job_id, file_path) ∧
    s3_download env = Returns tt ∧
    whisper_transcribe env = Returns transcription ∧
    dynamo_write env PutNote = Returns tt ∧
    notes_table (world r) =
      <[job_id := note_item env job_id (diary_of env transcription)]> (notes_table w).
Proof.
  intros r. subst r.
  destruct (process_message_shape json_loads env w)
    as [(-> & _ & _)|(m & job & fp & Hrecv & Hdec & H)]; [by left|].
  cbv zeta in H.
  destruct (tmp_create env) as [temp_file|msg].
  - pose proof (file_note env job fp temp_file
      (with_files (union {[ temp_file ]}) (after_downloading env job w))) as Hfile.
    cbv zeta in Hfile. simpl in Hfile. rewrite after_downloading_notes in Hfile.
    assert (notes_table (world (process_message json_loads env w)) =
            notes_table (world (process_file env job fp temp_file
              (with_files (union {[ temp_file ]}) (after_downloading env job w)))))
      as -> by (destruct (sqs_delete env) as [[]|?]; by destruct H as [-> _]).
    destruct Hfile as [Hsame|(job_id & t & Hkey & Hfetch & Htr & Hput & Hnotes)].
    + by left.
    + right. exists m, job_id, fp, t. destruct job; try done.
      injection Hkey as ->. by split_and!.
  - destruct H as [-> _]. left. apply after_downloading_notes.
Qed.


(** *** From the worker to the read endpoints *)

Lemma get_result_unfinished w job_id s :
  job_status w job_id = Some s →
  s ≠ AStr "completed" →
  App.get_result (Intake.db_of w) job_id =
    App.OK [("job_id", AStr job_id);
            ("status", s);
            ("message", AStr "Processing not yet complete")].
Proof.
  unfold job_status, attr_of, App.get_result, App.get_item. simpl.
  destruct (transcription_table w !! job_id) as [item|]; [|done]. simpl.
  intros Hs Hne. rewrite bool_decide_eq_true_2 by congruence.
  unfold get. by rewrite Hs.
Qed.

Lemma get_result_finished w job_id note :
  job_status w job_id = Some (AStr "completed") →
  notes_table w !! job_id = Some note →
  App.get_result (Intake.db_of w) job_id =
    App.OK [("job_id", AStr job_id);
            ("status", AStr "completed");
            ("transcription",
             default (AStr "") (attr_of (transcription_table w) job_id "transcription"));
            ("diary_note", get note "diary_note" (AStr ""))].
Proof.
  unfold job_status, attr_of, App.get_result, App.get_item. simpl.
  destruct (transcription_table w !! job_id) as [item|]; [|done]. simpl.
  intros Hs ->. by rewrite bool_decide_eq_false_2 by (by intros []).
Qed.

Lemma check_status_of_world w job_id s :
  job_status w job_id = Some s →
  App.check_status (Intake.db_of w) job_id =
    App.OK [("job_id", AStr job_id);
            ("status", s);
            ("file_name",
             default (AStr "") (attr_of (transcription_table w) job_id "file_name"))].
Proof.
  unfold job_status, attr_of, App.check_status, App.get_item. simpl.
  destruct (transcription_table w !! job_id) as [item|]; [|done]. simpl.
  intros Hs. unfold get. by rewrite Hs.
Qed.

(** What a run that got its temporary file leaves: the tables and files of
    the [with] block, and the queue as [delete_message] went. *)
Lemma message_of_file json_loads env w m job file_path temp_file :
  sqs_receive env = Returns (Some m) →
  decode json_loads m = Some (job, file_path) →
  tmp_create env = Returns temp_file →
  let r := process_message json_loads env w in
  let rf := process_file env job file_path temp_file
              (with_files (union {[ temp_file ]}) (after_downloading env job w)) in
  transcription_table (world r) = transcription_table (world rf) ∧
  notes_table (world r) = notes_table (world rf) ∧
  files (world r) = files (world rf) ∧
  match sqs_delete env with
  | Returns _ =>
      result r = inl true ∧
      queue (world r) = remove_receipt (ReceiptHandle m) (queue w)
  | Raises _ => result r = inl false ∧ queue (world r) = queue w
  end.
Proof.
  intros Hrecv Hdec Htmp r rf. subst r rf.
  destruct (process_message_shape json_loads env w)
    as [(_ & _ & Hpoison)|(m' & job' & fp' & Hrecv' & Hdec' & H)].
  { specialize (Hpoison m Hrecv). congruence. }
  assert (m' = m) as -> by congruence.
  assert (job' = job ∧ fp' = file_path) as [-> ->] by (split; congruence).
  cbv zeta in H. rewrite Htmp in H.
  destruct (sqs_delete env) as [[]|?]; destruct H as [-> ->].
  - split_and!; try done. unfold with_queue at 1. cbn [queue].
    by rewrite file_keeps_queue, <- (after_downloading_queue env job w).
  - split_and!; try done.
    by rewrite file_keeps_queue, <- (after_downloading_queue env job w).
Qed.

(** *** A transcription that fails *)

Lemma file_transcription_fails env job_id file_path temp_file w msg :
  s3_download env = Returns tt →
  whisper_transcribe env = Raises msg →
  dynamo_write env SetTranscribing = Returns tt →
  let r := process_file env (JStr job_id) file_path temp_file w in
  job_status (world r) job_id = Some (AStr "transcribing") ∧
  job_error (world r) job_id = job_error w job_id ∧
  notes_table (world r) = notes_table w.
Proof.
  intros Hfetch Htranscribe Htranscribing r. subst r.
  hide_goal (process_file env (JStr job_id) file_path temp_file w).
  unfold_file. crunch.
  all: show_goal; simpl; split_and!; try done.
  all: unfold job_status, job_error; simpl.
  all: first [by erewrite attr_of_upsert_set by reflexivity | by other_attr].
Qed.

(** X6.  A transcription that fails is not reported.  When the blob is
    fetched, the write of [transcribing] goes through and the
    transcription engine raises, the update that is to record the failure
    is refused (its expression names the reserved word [error]): the job
    stays in [transcribing] with the error field it had before, no note is
    written, the message is deleted when [delete_message] returns, and
    [get_result] then answers with status [transcribing] and "Processing
    not yet complete". *)
Theorem transcription_failure json_loads env w m job_id file_path temp_file msg :
  sqs_receive env = Returns (Some m) →
  decode json_loads m = Some (JStr job_id, file_path) →
  tmp_create env = Returns temp_file →
  s3_download env = Returns tt →
  dynamo_write env SetTranscribing = Returns tt →
  whisper_transcribe env = Raises msg →
  let r := process_message json_loads env w in
  job_status (world r) job_id = Some (AStr "transcribing") ∧
  job_error (world r) job_id = job_error w job_id ∧
  notes_table (world r) = notes_table w ∧
  (sqs_delete env = Returns tt →
   result r = inl true ∧
   queue (world r) = remove_receipt (ReceiptHandle m) (queue w)) ∧
  App.get_result (Intake.db_of (world r)) job_id =
    App.OK [("job_id", AStr job_id);
            ("status", AStr "transcribing");
            ("message", AStr "Processing not yet complete")].
Proof.
  intros Hrecv Hdec Htmp Hfetch Htranscribing Htranscribe r.
  destruct (message_of_file json_loads env w m _ _ _ Hrecv Hdec Htmp)
    as (Ht & Hn & _ & Hq).
  destruct (file_transcription_fails env job_id file_path temp_file
              (with_files (union {[ temp_file ]}) (after_downloading env (JStr job_id) w))
              msg Hfetch Htranscribe Htranscribing) as (Hstatus & Herr & Hnotes).
  assert (job_status (world r) job_id = Some (AStr "transcribing")) as Hs.
  { unfold job_status in *. subst r. by rewrite Ht. }
  split_and!.
  - done.
  - unfold job_error in *. subst r. rewrite Ht, Herr. simpl.
    unfold after_downloading. simpl.
    destruct (dynamo_write env SetDownloading); [|done]. simpl. by other_attr.
  - subst r. rewrite Hn, Hnotes. simpl. apply after_downloading_notes.
  - intros Hdel. by rewrite Hdel in Hq.
  - by apply get_result_unfinished.
Qed.

Lemma transcription_failure_witness :
  let r := process_message Scenario.json_loads Cases.no_speech Scenario.queued in
  job_status (world r) "J1" = Some (AStr "transcribing") ∧
  job_error (world r) "J1" = job_error Scenario.queued "J1" ∧
  notes_table (world r) = notes_table Scenario.queued ∧
  (sqs_delete Cases.no_speech = Returns tt →
   result r = inl true ∧
   queue (world r) = remove_receipt "AQEB-1" (queue Scenario.queued)) ∧
  App.get_result (Intake.db_of (world r)) "J1" =
    App.OK [("job_id", AStr "J1");
            ("status", AStr "transcribing");
            ("message", AStr "Processing not yet complete")].
Proof.
  apply (transcription_failure Scenario.json_loads Cases.no_speech Scenario.queued
           Scenario.dispatch_J1 "J1" (JStr "uploads/J1/a.mp3") Scenario.temp_name
           "Failed to load audio"); reflexivity.
Defined.

(** *** No temporary file *)

(** X7.  When the temporary file cannot be created the run ends there: it
    returns [False], the message stays in the queue, no note and no file
    is written, and the job, whose status was written before, is left in
    [downloading]. *)
Theorem no_temporary_file json_loads env w m job_id file_path msg :
  sqs_receive env = Returns (Some m) →
  decode json_loads m = Some (JStr job_id, file_path) →
  dynamo_write env SetDownloading = Returns tt →
  tmp_create env = Raises msg →
  let r := process_message json_loads env w in
  result r = inl false ∧
  job_status (world r) job_id = Some (AStr "downloading") ∧
  queue (world r) = queue w ∧
  notes_table (world r) = notes_table w ∧
  files (world r) = files w.
Proof.
  intros Hrecv Hdec Hdownloading Htmp r. subst r.
  destruct (process_message_shape json_loads env w)
    as [(_ & _ & Hpoison)|(m' & job' & fp' & Hrecv' & Hdec' & H)].
  { specialize (Hpoison m Hrecv). congruence. }
  assert (m' = m) as -> by congruence.
  assert (job' = JStr job_id ∧ fp' = file_path) as [-> ->] by (split; congruence).
  cbv zeta in H. rewrite Htmp in H. destruct H as [-> ->].
  unfold after_downloading. simpl. rewrite Hdownloading. simpl.
  split_and!; try done. by statuses I.
Qed.

Lemma no_temporary_file_witness :
  let r := process_message Scenario.json_loads Cases.no_space Scenario.queued in
  result r = inl false ∧
  job_status (world r) "J1" = Some (AStr "downloading") ∧
  queue (world r) = queue Scenario.queued ∧
  notes_table (world r) = notes_table Scenario.queued ∧
  files (world r) = files Scenario.queued.
Proof.
  apply (no_temporary_file Scenario.json_loads Cases.no_space Scenario.queued
           Scenario.dispatch_J1 "J1" (JStr "uploads/J1/a.mp3")
           "[Errno 28] No space left on device"); reflexivity.
Defined.

(** *** A job that completes *)

Lemma file_completes env job_id file_path temp_file w transcription :
  s3_download env = Returns tt →
  whisper_transcribe env = Returns transcription →
  dynamo_write env PutNote = Returns tt →
  dynamo_write env SetCompleted = Returns tt →
  let r := process_file env (JStr job_id) file_path temp_file w in
  job_status (world r) job_id = Some (AStr "completed") ∧
  attr_of (transcription_table (world r)) job_id "transcription" =
    match dynamo_write env SetGeneratingNote with
    | Returns _ => Some (AStr transcription)
    | Raises _ => attr_of (transcription_table w) job_id "transcription"
    end ∧
  notes_table (world r) !! job_id =
    Some (note_item env job_id (diary_of env transcription)).
Proof.
  intros Hfetch Htranscribe Hput Hcompleted r. subst r.
  hide_goal (process_file env (JStr job_id) file_path temp_file w).
  unfold_file. crunch.
  all: show_goal; simpl; unfold note_item, diary_of.
  all: repeat match goal with H : _ = _ |- _ => rewrite H end.
  all: split_and!; [by statuses I| |by rewrite lookup_insert_eq].
  all: rewrite ?upsert_upsert; simpl.
  all: first [ by erewrite attr_of_upsert_set by reflexivity | by other_attr ].
Qed.

Lemma diary_note_of_item env job_id note :
  get (note_item env job_id note) "diary_note" (AStr "") = AStr note.
Proof. unfold get, note_item, new_item. by rewrite lookup_set_attrs. Qed.

(** What a run that goes through leaves of the job. *)
Lemma message_completes json_loads env w m job_id file_path temp_file transcription :
  sqs_receive env = Returns (Some m) →
  decode json_loads m = Some (JStr job_id, file_path) →
  tmp_create env = Returns temp_file →
  s3_download env = Returns tt →
  whisper_transcribe env = Returns transcription →
  dynamo_write env PutNote = Returns tt →
  dynamo_write env SetCompleted = Returns tt →
  let r := process_message json_loads env w in
  job_status (world r) job_id = Some (AStr "completed") ∧
  attr_of (transcription_table (world r)) job_id "transcription" =
    match dynamo_write env SetGeneratingNote with
    | Returns _ => Some (AStr transcription)
    | Raises _ => attr_of (transcription_table w) job_id "transcription"
    end ∧
  attr_of (transcription_table (world r)) job_id "file_name" =
    attr_of (transcription_table w) job_id "file_name" ∧
  notes_table (world r) !! job_id =
    Some (note_item env job_id (diary_of env transcription)) ∧
  match sqs_delete env with
  | Returns _ =>
      result r = inl true ∧
      queue (world r) = remove_receipt (ReceiptHandle m) (queue w)
  | Raises _ => result r = inl false ∧ queue (world r) = queue w
  end.
Proof.
  intros Hrecv Hdec Htmp Hfetch Htranscribe Hput Hcompleted r.
  destruct (message_of_file json_loads env w m _ _ _ Hrecv Hdec Htmp)
    as (Ht & Hn & _ & Hq).
  set (w1 := with_files (union {[ temp_file ]}) (after_downloading env (JStr job_id) w)) in *.
  destruct (file_completes env job_id file_path temp_file w1 transcription
              Hfetch Htranscribe Hput Hcompleted) as (Hstatus & Htr & Hnote).
  cbv zeta in Ht, Hn.
  assert ("file_name" ∉ written_attrs) as Hother
    by (apply (bool_decide_unpack _); by vm_compute).
  pose proof (file_keeps_attrs env job_id file_path temp_file w1 "file_name" Hother)
    as Hname.
  cbv zeta in Hname. subst w1. simpl in Hname, Htr.
  rewrite (after_downloading_attrs env job_id w "file_name" Hother) in Hname.
  assert (attr_of (transcription_table (after_downloading env (JStr job_id) w))
            job_id "transcription" =
          attr_of (transcription_table w) job_id "transcription") as Hbefore.
  { unfold after_downloading. simpl.
    destruct (dynamo_write env SetDownloading); [|done]. simpl. by other_attr. }
  rewrite Hbefore in Htr.
  unfold job_status in *. subst r. rewrite Ht, Hn. by split_and!.
Qed.

(** The answers of the read endpoints for a completed job with a note. *)
Lemma completed_answers w job_id (transcription : option Attr) note item :
  job_status w job_id = Some (AStr "completed") →
  attr_of (transcription_table w) job_id "transcription" = transcription →
  notes_table w !! job_id = Some item →
  get item "diary_note" (AStr "") = AStr note →
  App.get_result (Intake.db_of w) job_id =
    App.OK [("job_id", AStr job_id);
            ("status", AStr "completed");
            ("transcription", default (AStr "") transcription);
            ("diary_note", AStr note)] ∧
  App.check_status (Intake.db_of w) job_id =
    App.OK [("job_id", AStr job_id);
            ("status", AStr "completed");
            ("file_name",
             default (AStr "") (attr_of (transcription_table w) job_id "file_name"))].
Proof.
  intros Hs Htr Hitem Hnote. split.
  - erewrite get_result_finished by done. by rewrite Htr, Hnote.
  - by erewrite check_status_of_world by done.
Qed.

(** X8.  When the blob is fetched and transcribed and the writes of the
    transcription, of the note and of [completed] go through, the run
    returns [True] once [delete_message] returned, the message is gone,
    and the read endpoints serve the job: [get_result] answers with the
    transcription of the engine and the note of the run, [check_status]
    with [completed] and the file name stored before the run. *)
Theorem completed_job_served json_loads env w m job_id file_path temp_file transcription :
  sqs_receive env = Returns (Some m) →
  decode json_loads m = Some (JStr job_id, file_path) →
  tmp_create env = Returns temp_file →
  s3_download env = Returns tt →
  whisper_transcribe env = Returns transcription →
  dynamo_write env SetGeneratingNote = Returns tt →
  dynamo_write env PutNote = Returns tt →
  dynamo_write env SetCompleted = Returns tt →
  sqs_delete env = Returns tt →
  let r := process_message json_loads env w in
  result r = inl true ∧
  queue (world r) = remove_receipt (ReceiptHandle m) (queue w) ∧
  App.get_result (Intake.db_of (world r)) job_id =
    App.OK [("job_id", AStr job_id);
            ("status", AStr "completed");
            ("transcription", AStr transcription);
            ("diary_note", AStr (diary_of env transcription))] ∧
  App.check_status (Intake.db_of (world r)) job_id =
    App.OK [("job_id", AStr job_id);
            ("status", AStr "completed");
            ("file_name",
             default (AStr "") (attr_of (transcription_table w) job_id "file_name"))].
Proof.
  intros Hrecv Hdec Htmp Hfetch Htranscribe Hgenerating Hput Hcompleted Hdelete r.
  destruct (message_completes json_loads env w m job_id file_path temp_file transcription
              Hrecv Hdec Htmp Hfetch Htranscribe Hput Hcompleted)
    as (Hs & Htr & Hname & Hnote & Hq).
  rewrite Hdelete in Hq. destruct Hq as [Hres Hq]. rewrite Hgenerating in Htr.
  destruct (completed_answers _ job_id _ _ _ Hs Htr Hnote
              (diary_note_of_item env job_id _)) as [Hget Hcheck].
  subst r. split_and!; try done. by rewrite Hcheck, Hname.
Qed.

Lemma completed_job_served_witness :
  let r := process_message Scenario.json_loads Scenario.all_well Scenario.queued in
  result r = inl true ∧
  queue (world r) = remove_receipt "AQEB-1" (queue Scenario.queued) ∧
  App.get_result (Intake.db_of (world r)) "J1" =
    App.OK [("job_id", AStr "J1");
            ("status", AStr "completed");
            ("transcription", AStr " Went for a walk.");
            ("diary_note", AStr (diary_of Scenario.all_well " Went for a walk."))] ∧
  App.check_status (Intake.db_of (world r)) "J1" =
    App.OK [("job_id", AStr "J1");
            ("status", AStr "completed");
            ("file_name",
             default (AStr "")
               (attr_of (transcription_table Scenario.queued) "J1" "file_name"))].
Proof.
  apply (completed_job_served Scenario.json_loads Scenario.all_well Scenario.queued
           Scenario.dispatch_J1 "J1" (JStr "uploads/J1/a.mp3") Scenario.temp_name
           " Went for a walk."); reflexivity.
Defined.

(** X9.  The transcription is stored by the write of [generating_note]
    alone.  When that write raises and the rest goes through, the job
    still ends [completed] with its note, and [get_result] serves it with
    the transcription the record had before the run, the empty string for
    a job that had none. *)
Theorem transcription_not_stored json_loads env w m job_id file_path temp_file
    transcription msg :
  sqs_receive env = Returns (Some m) →
  decode json_loads m = Some (JStr job_id, file_path) →
  tmp_create env = Returns temp_file →
  s3_download env = Returns tt →
  whisper_transcribe env = Returns transcription →
  dynamo_write env SetGeneratingNote = Raises msg →
  dynamo_write env PutNote = Returns tt →
  dynamo_write env SetCompleted = Returns tt →
  let r := process_message json_loads env w in
  App.get_result (Intake.db_of (world r)) job_id =
    App.OK [("job_id", AStr job_id);
            ("status", AStr "completed");
            ("transcription",
             default (AStr "") (attr_of (transcription_table w) job_id "transcription"));
            ("diary_note", AStr (diary_of env transcription))].
Proof.
  intros Hrecv Hdec Htmp Hfetch Htranscribe Hgenerating Hput Hcompleted r.
  destruct (message_completes json_loads env w m job_id file_path temp_file transcription
              Hrecv Hdec Htmp Hfetch Htranscribe Hput Hcompleted)
    as (Hs & Htr & _ & Hnote & _).
  rewrite Hgenerating in Htr.
  by destruct (completed_answers _ job_id _ _ _ Hs Htr Hnote
                 (diary_note_of_item env job_id _)) as [Hget _].
Qed.

Lemma transcription_not_stored_witness :
  App.get_result
    (Intake.db_of (world (process_message Scenario.json_loads Cases.lost_write Scenario.queued)))
    "J1" =
    App.OK [("job_id", AStr "J1");
            ("status", AStr "completed");
            ("transcription",
             default (AStr "")
               (attr_of (transcription_table Scenario.queued) "J1" "transcription"));
            ("diary_note", AStr (diary_of Cases.lost_write " Went for a walk."))].
Proof.
  apply (transcription_not_stored Scenario.json_loads Cases.lost_write Scenario.queued
           Scenario.dispatch_J1 "J1" (JStr "uploads/J1/a.mp3") Scenario.temp_name
           " Went for a walk."
           "An error occurred (ProvisionedThroughputExceededException)"); reflexivity.
Defined.

(** *** More of the read endpoints *)

(** X10.  [get_result] has the defect of [check_status]: for a job the
    table has no item of, the 404 it raises is caught by its own [except]
    clause and leaves as a 500 whose detail is the text of the 404. *)
Theorem get_result_unknown_job db job_id :
  App.get_item db App.AudioTranscriptions job_id = inl None →
  App.get_result db job_id = App.Failed 500 "404: Job not found".
Proof. intros H. unfold App.get_result. by rewrite H. Qed.

Lemma get_result_unknown_job_witness :
  App.get_result Scenario.note_missing "J2" = App.Failed 500 "404: Job not found".
Proof. apply (get_result_unknown_job Scenario.note_missing "J2"). reflexivity. Defined.

Lemma client_error_404 msg detail :
  App.except_clause (inr (App.ClientError msg)) = App.Failed 404 detail →
  detail = "Job not found" ∧
  String.prefix "An error occurred (ResourceNotFoundException)" msg = true.
Proof.
  unfold App.except_clause. simpl.
  destruct (String.prefix _ msg); [|done]. by intros [= <-].
Qed.

(** X11.  Neither read endpoint answers 404 for a job that is not there:
    a 404 leaves [check_status] or [get_result] only when a table lookup
    itself raised an error whose text starts with "An error occurred
    (ResourceNotFoundException)", and its detail is then "Job not
    found". *)
Theorem not_found_needs_client_error db job_id detail :
  App.check_status db job_id = App.Failed 404 detail ∨
  App.get_result db job_id = App.Failed 404 detail →
  detail = "Job not found" ∧
  ∃ name msg,
    App.get_raises db name = Some msg ∧
    String.prefix "An error occurred (ResourceNotFoundException)" msg = true.
Proof.
  unfold App.check_status, App.get_result, App.get_item.
  destruct (App.get_raises db App.AudioTranscriptions) as [msg|] eqn:Hjobs.
  - intros [H|H]; apply client_error_404 in H as [-> Hprefix]; eauto.
  - destruct (App.transcription_table db !! job_id) as [item|]; [|by intros [|]].
    intros [H|H]; [done|].
    destruct (bool_decide _); [done|].
    destruct (App.get_raises db App.DiaryNotes) as [msg|] eqn:Hnotes.
    + apply client_error_404 in H as [-> Hprefix]; eauto.
    + by destruct (App.notes_table db !! job_id).
Qed.

Lemma not_found_needs_client_error_witness :
  "Job not found" = "Job not found" ∧
  ∃ name msg,
    App.get_raises Cases.no_tables name = Some msg ∧
    String.prefix "An error occurred (ResourceNotFoundException)" msg = true.
Proof.
  apply (not_found_needs_client_error Cases.no_tables "J1" "Job not found").
  left. reflexivity.
Defined.

(** X12.  When the lookup in the table of jobs raises, both endpoints give
    the same answer whatever the job: 404 "Job not found" for an error
    whose text starts with "An error occurred (ResourceNotFoundException)",
    and 500 with the text of the error for any other. *)
Theorem lookup_failure_answer db job_id msg :
  App.get_raises db App.AudioTranscriptions = Some msg →
  let answer :=
    if String.prefix "An error occurred (ResourceNotFoundException)" msg
    then App.Failed 404 "Job not found"
    else App.Failed 500 msg in
  App.check_status db job_id = answer ∧ App.get_result db job_id = answer.
Proof.
  intros H. unfold App.check_status, App.get_result, App.get_item. by rewrite H.
Qed.

Lemma lookup_failure_answer_witness :
  App.check_status Cases.no_tables "J1" = App.Failed 404 "Job not found" ∧
  App.get_result Cases.no_tables "J1" = App.Failed 404 "Job not found".
Proof.
  apply (lookup_failure_answer Cases.no_tables "J1"
           "An error occurred (ResourceNotFoundException) when calling the GetItem operation").
  reflexivity.
Defined.

(** X13.  A completed job is reported as not found when the table of notes
    is missing: [check_status] answers [completed] for it while
    [get_result] answers 404 "Job not found". *)
Theorem completed_job_not_found db job_id item rest :
  App.get_item db App.AudioTranscriptions job_id = inl (Some item) →
  item !! "job_status" = Some (AStr "completed") →
  App.get_raises db App.DiaryNotes =
    Some ("An error occurred (ResourceNotFoundException)" +:+ rest) →
  App.check_status db job_id =
    App.OK [("job_id", AStr job_id);
            ("status", AStr "completed");
            ("file_name", get item "file_name" (AStr ""))] ∧
  App.get_result db job_id = App.Failed 404 "Job not found".
Proof.
  intros Hjob Hstatus Hnotes. split.
  - unfold App.check_status. rewrite Hjob. unfold get at 1. by rewrite Hstatus.
  - unfold App.get_result. rewrite Hjob, Hstatus.
    rewrite bool_decide_eq_false_2 by (by intros []).
    unfold App.get_item. rewrite Hnotes. simpl. by destruct rest.
Qed.

Lemma completed_job_not_found_witness :
  App.check_status Cases.notes_gone "J1" =
    App.OK [("job_id", AStr "J1");
            ("status", AStr "completed");
            ("file_name", get Scenario.completed_J1 "file_name" (AStr ""))] ∧
  App.get_result Cases.notes_gone "J1" = App.Failed 404 "Job not found".
Proof.
  apply (completed_job_not_found Cases.notes_gone "J1" Scenario.completed_J1
           " when calling the GetItem operation"); reflexivity.
Defined.

(** X14.  [get_result] hands out a note only for a completed job: when its
    answer has a [diary_note], both lookups answered, the Job record has
    status [completed] and there is a Note record. *)
Theorem note_only_when_completed db job_id :
  "diary_note" ∈ keys (body_of (App.get_result db job_id)) →
  ∃ item note,
    App.get_item db App.AudioTranscriptions job_id = inl (Some item) ∧
    item !! "job_status" = Some (AStr "completed") ∧
    App.get_item db App.DiaryNotes job_id = inl (Some note).
Proof.
  unfold App.get_result.
  destruct (App.get_item db App.AudioTranscriptions job_id) as [[item|]|e] eqn:Hjob.
  - destruct (decide (item !! "job_status" = Some (AStr "completed"))) as [Hs|Hs].
    + rewrite bool_decide_eq_false_2 by (by intros []).
      destruct (App.get_item db App.DiaryNotes job_id) as [[note|]|e] eqn:Hnote.
      * intros _. by exists item, note.
      * simpl. intros H. exfalso. revert H. by apply (bool_decide_unpack _).
      * simpl. destruct (String.prefix _ _); simpl; intros []%elem_of_nil.
    + rewrite bool_decide_eq_true_2 by done.
      simpl. intros H. exfalso. revert H. by apply (bool_decide_unpack _).
  - simpl. intros []%elem_of_nil.
  - simpl. destruct (String.prefix _ _); simpl; intros []%elem_of_nil.
Qed.

Lemma note_only_when_completed_witness :
  ∃ item note,
    App.get_item Cases.served App.AudioTranscriptions "J1" = inl (Some item) ∧
    item !! "job_status" = Some (AStr "completed") ∧
    App.get_item Cases.served App.DiaryNotes "J1" = inl (Some note).
Proof.
  apply (note_only_when_completed Cases.served "J1").
  apply (bool_decide_unpack _). by vm_compute.
Defined.

(** X15.  The text of a failure, which the worker sets out to store as
    [error] with the job, is never handed out: no answer of [check_status]
    or [get_result] has an [error] entry. *)
Theorem error_text_not_served db job_id :
  ("error" ∉ keys (body_of (App.check_status db job_id))) ∧
  ("error" ∉ keys (body_of (App.get_result db job_id))).
Proof.
  unfold App.check_status, App.get_result, App.except_clause.
  destruct (App.get_item db App.AudioTranscriptions job_id) as [[item|]|e].
  - split; [by apply (bool_decide_unpack _)|].
    destruct (bool_decide _); [by apply (bool_decide_unpack _)|].
    destruct (App.get_item db App.DiaryNotes job_id) as [[note|]|e].
    + by apply (bool_decide_unpack _).
    + by apply (bool_decide_unpack _).
    + destruct (String.prefix _ _); apply not_elem_of_nil.
  - split; apply not_elem_of_nil.
  - split; destruct (String.prefix _ _); apply not_elem_of_nil.
Qed.

(** *** The upload endpoint *)

(** X16.  [upload_audio] answers 200 exactly when the blob was stored and
    the message sent: then the answer is the new job identifier with
    status [queued], the blob is in the bucket under its path and the
    message is the last of the queue, whether the Job record was written
    or not.  Every failure is a 500 with the text of the error, and the
    queue is then as it was. *)
Theorem upload_answer json_dumps calls filename content s :
  let job_id := Intake.uuid4 calls in
  let answer := Intake.upload_audio json_dumps calls filename content s in
  (Intake.s3_upload calls = Returns tt ∧
   Intake.sqs_send calls = Returns tt ∧
   answer.1 = App.OK [("job_id", AStr job_id); ("status", AStr "queued")] ∧
   Intake.bucket answer.2 !! Intake.path_of job_id filename = Some content ∧
   queue (Intake.backend answer.2) =
     queue (Intake.backend s) ++ [sent json_dumps calls filename]) ∨
  (∃ msg,
     (Intake.s3_upload calls = Raises msg ∨ Intake.sqs_send calls = Raises msg) ∧
     answer.1 = App.Failed 500 msg ∧
     queue (Intake.backend answer.2) = queue (Intake.backend s)).
Proof.
  unfold Intake.upload_audio, sent.
  destruct (Intake.s3_upload calls) as [[]|msg]; [|right; exists msg; split_and!; [by left|done|done]].
  destruct (Intake.sqs_send calls) as [[]|msg].
  - left. split_and!; try done.
    + destruct (Intake.dynamo_put calls); simpl; by rewrite lookup_insert_eq.
    + by destruct (Intake.dynamo_put calls).
  - right. exists msg. split_and!; [by right|done|].
    by destruct (Intake.dynamo_put calls).
Qed.

(** X17.  A refused upload is not undone.  When the blob was stored and the
    record written but the message could not be sent, the client gets a
    500 while the blob stays in the bucket and the job stays [queued]:
    [check_status] answers for it, and no message will ever reach the
    worker. *)
Theorem failed_upload_leaves_job json_dumps calls filename content s msg :
  Intake.s3_upload calls = Returns tt →
  Intake.dynamo_put calls = Returns tt →
  Intake.sqs_send calls = Raises msg →
  let job_id := Intake.uuid4 calls in
  let answer := Intake.upload_audio json_dumps calls filename content s in
  answer.1 = App.Failed 500 msg ∧
  Intake.bucket answer.2 !! Intake.path_of job_id filename = Some content ∧
  queue (Intake.backend answer.2) = queue (Intake.backend s) ∧
  App.check_status (Intake.db_of (Intake.backend answer.2)) job_id =
    App.OK [("job_id", AStr job_id);
            ("status", AStr "queued");
            ("file_name", AStr filename)].
Proof.
  intros Hupload Hput Hsend. unfold Intake.upload_audio.
  rewrite Hupload, Hput, Hsend. simpl. split_and!; try done.
  - by rewrite lookup_insert_eq.
  - unfold App.check_status, App.get_item. simpl. by rewrite lookup_insert_eq.
Qed.

Lemma failed_upload_leaves_job_witness :
  let answer := Intake.upload_audio Cases.json_dumps Cases.upload_no_queue
                  "a.mp3" "RIFF" Cases.empty_site in
  answer.1 =
    App.Failed 500 "An error occurred (AWS.SimpleQueueService.NonExistentQueue)" ∧
  Intake.bucket answer.2 !! Intake.path_of "J1" "a.mp3" = Some "RIFF" ∧
  queue (Intake.backend answer.2) = queue (Intake.backend Cases.empty_site) ∧
  App.check_status (Intake.db_of (Intake.backend answer.2)) "J1" =
    App.OK [("job_id", AStr "J1");
            ("status", AStr "queued");
            ("file_name", AStr "a.mp3")].
Proof.
  apply (failed_upload_leaves_job Cases.json_dumps Cases.upload_no_queue
           "a.mp3" "RIFF" Cases.empty_site
           "An error occurred (AWS.SimpleQueueService.NonExistentQueue)"); reflexivity.
Defined.

(** X18.  The Job record is optional for the upload.  When its [put_item]
    raises, the upload is still answered 200 with status [queued], and
    [check_status] for the identifier just handed out fails with a 500
    (the lost 404) as long as the table has no item of that job. *)
Theorem accepted_upload_without_record json_dumps calls filename content s msg :
  Intake.s3_upload calls = Returns tt →
  Intake.dynamo_put calls = Raises msg →
  Intake.sqs_send calls = Returns tt →
  transcription_table (Intake.backend s) !! Intake.uuid4 calls = None →
  let job_id := Intake.uuid4 calls in
  let answer := Intake.upload_audio json_dumps calls filename content s in
  answer.1 = App.OK [("job_id", AStr job_id); ("status", AStr "queued")] ∧
  App.check_status (Intake.db_of (Intake.backend answer.2)) job_id =
    App.Failed 500 "404: Job not found".
Proof.
  intros Hupload Hput Hsend Hfresh. unfold Intake.upload_audio.
  rewrite Hupload, Hput, Hsend. simpl. split; [done|].
  unfold App.check_status, App.get_item. simpl. by rewrite Hfresh.
Qed.

Lemma accepted_upload_without_record_witness :
  let answer := Intake.upload_audio Cases.json_dumps Cases.upload_no_table
                  "a.mp3" "RIFF" Cases.empty_site in
  answer.1 = App.OK [("job_id", AStr "J1"); ("status", AStr "queued")] ∧
  App.check_status (Intake.db_of (Intake.backend answer.2)) "J1" =
    App.Failed 500 "404: Job not found".
Proof.
  apply (accepted_upload_without_record Cases.json_dumps Cases.upload_no_table
           "a.mp3" "RIFF" Cases.empty_site "Could not connect to the endpoint URL");
    reflexivity.
Defined.

(** The message an upload sends is a dispatch the worker can read, when
    [json.loads] gives back what [json.dumps] was given. *)
Lemma sent_decodes json_dumps json_loads calls filename :
  let job_id := Intake.uuid4 calls in
  let file_path := Intake.path_of job_id filename in
  json_loads (json_dumps (Intake.dispatch job_id file_path filename)) =
    Some (Intake.dispatch job_id file_path filename) →
  decode json_loads (sent json_dumps calls filename) =
    Some (JStr job_id, JStr file_path).
Proof.
  intros job_id file_path Hloads. unfold decode, sent. simpl.
  fold job_id. fold file_path. by rewrite Hloads.
Qed.

(** X19.  From upload to result.  For an accepted upload whose message the
    worker then receives, when [json.loads] reads back what [json.dumps]
    wrote and the calls of the run that matter return, [get_result]
    answers with the transcription and the note, and [check_status] with
    [completed] and the name of the uploaded file.  When the upload could
    not write the Job record, the worker's first update creates it without
    a file name, and [check_status] answers with the empty name. *)
Theorem upload_then_worker json_dumps json_loads calls filename content s
    env temp_file transcription :
  let job_id := Intake.uuid4 calls in
  let file_path := Intake.path_of job_id filename in
  json_loads (json_dumps (Intake.dispatch job_id file_path filename)) =
    Some (Intake.dispatch job_id file_path filename) →
  Intake.s3_upload calls = Returns tt →
  Intake.sqs_send calls = Returns tt →
  transcription_table (Intake.backend s) !! job_id = None →
  sqs_receive env = Returns (Some (sent json_dumps calls filename)) →
  tmp_create env = Returns temp_file →
  s3_download env = Returns tt →
  whisper_transcribe env = Returns transcription →
  dynamo_write env SetGeneratingNote = Returns tt →
  dynamo_write env PutNote = Returns tt →
  dynamo_write env SetCompleted = Returns tt →
  let answer := Intake.upload_audio json_dumps calls filename content s in
  let r := process_message json_loads env (Intake.backend answer.2) in
  answer.1 = App.OK [("job_id", AStr job_id); ("status", AStr "queued")] ∧
  App.get_result (Intake.db_of (world r)) job_id =
    App.OK [("job_id", AStr job_id);
            ("status", AStr "completed");
            ("transcription", AStr transcription);
            ("diary_note", AStr (diary_of env transcription))] ∧
  App.check_status (Intake.db_of (world r)) job_id =
    App.OK [("job_id", AStr job_id);
            ("status", AStr "completed");
            ("file_name",
             match Intake.dynamo_put calls with
             | Returns _ => AStr filename
             | Raises _ => AStr ""
             end)].
Proof.
  intros job_id file_path Hloads Hupload Hsend Hfresh Hrecv Htmp Hfetch Htranscribe
    Hgenerating Hput Hcompleted answer r.
  pose proof (sent_decodes json_dumps json_loads calls filename Hloads) as Hdec.
  cbv zeta in Hdec. fold job_id in Hdec. fold file_path in Hdec.
  destruct (message_completes json_loads env (Intake.backend answer.2) _ job_id _
              temp_file transcription Hrecv Hdec Htmp Hfetch Htranscribe Hput Hcompleted)
    as (Hs & Htr & Hname & Hnote & _).
  rewrite Hgenerating in Htr.
  destruct (completed_answers _ job_id _ _ _ Hs Htr Hnote
              (diary_note_of_item env job_id _)) as [Hget Hcheck].
  subst r. rewrite Hget, Hcheck, Hname. subst answer.
  unfold Intake.upload_audio. fold job_id. fold file_path.
  rewrite Hupload, Hsend. simpl. split_and!; try done.
  destruct (Intake.dynamo_put calls); simpl; unfold attr_of.
  - by rewrite lookup_insert_eq.
  - by rewrite Hfresh.
Qed.

Lemma upload_then_worker_witness :
  let answer := Intake.upload_audio Cases.json_dumps Cases.upload_well
                  "a.mp3" "RIFF" Cases.empty_site in
  let r := process_message Scenario.json_loads Scenario.all_well
             (Intake.backend answer.2) in
  answer.1 = App.OK [("job_id", AStr "J1"); ("status", AStr "queued")] ∧
  App.get_result (Intake.db_of (world r)) "J1" =
    App.OK [("job_id", AStr "J1");
            ("status", AStr "completed");
            ("transcription", AStr " Went for a walk.");
            ("diary_note", AStr (diary_of Scenario.all_well " Went for a walk."))] ∧
  App.check_status (Intake.db_of (world r)) "J1" =
    App.OK [("job_id", AStr "J1");
            ("status", AStr "completed");
            ("file_name",
             match Intake.dynamo_put Cases.upload_well with
             | Returns _ => AStr "a.mp3"
             | Raises _ => AStr ""
             end)].
Proof.
  apply (upload_then_worker Cases.json_dumps Scenario.json_loads Cases.upload_well
           "a.mp3" "RIFF" Cases.empty_site Scenario.all_well Scenario.temp_name
           " Went for a walk."); reflexivity.
Defined.
